(** * DeploySense: the simulated review / deployment state machine

    A shallow embedding of the state-changing handlers of the dashboard:

    - [Home] (repository registry and review list): [addRepository] with its
      delayed analysis callback, [removeRepository], [updateRepositoryStatus],
      [refreshRepositories];
    - [RepositoryManager]: [triggerManualReview];
    - [DeploymentPipeline]: [triggerDeployment] with its interval callback,
      [cancelDeployment], [retryDeployment].

    Conventions of the embedding.

    - A JavaScript [number] is a rational ([Q]); arithmetic is exact.
      [Math.floor] and [Math.round] return integers ([Z]).
    - [Math.random()] is an input of the handler that calls it: a rational
      [r]; the results that depend on its range assume [0 <= r < 1].
    - [Date.now()] is an input of the handler that calls it: an integer
      number of milliseconds.
    - React state is one record; [setX (prev => f prev)] applies [f] to the
      current value of [X].  Handlers run one at a time, each on the state
      left by the previous one (the page has re-rendered in between).
    - [setTimeout] and [setInterval] register a timer in the state; a timer
      firing is an event of its own.  The local variables captured by an
      interval callback ([progress], [currentStageIndex]) live in the timer.
    - The components stay mounted: their state is never reset.
    - The calls a handler makes ([setRepositories], [alert], ...) are logged,
      in order, in the [effects] field of the state.
    - Strings are sequences of bytes; the handlers only inspect the ASCII
      characters of [https://github.com/] and [/]. *)

From Stdlib Require Import ZArith QArith Qround String Ascii List Bool Lia Lqa.
From Stdlib Require Import DecimalString.
Import ListNotations.

Open Scope string_scope.
Open Scope list_scope.
Open Scope Z_scope.

(** Rational arithmetic stays symbolic under [simpl]. *)
Arguments Qplus : simpl never.
Arguments Qmult : simpl never.
Arguments Qminus : simpl never.
Arguments Qdiv : simpl never.
Arguments Qopp : simpl never.
Arguments Qinv : simpl never.
Arguments Qle : simpl never.
Arguments Qlt : simpl never.
Arguments Qle_bool : simpl never.
Arguments Qfloor : simpl never.
Arguments inject_Z : simpl never.

(** ** JavaScript primitives *)

Module JS.

(** [Math.floor]. *)
Definition Math_floor (x : Q) : Z := Qfloor x.

(** [Math.round]: nearest integer, halves rounded up. *)
Definition Math_round (x : Q) : Z := Qfloor (x + (1 # 2)).

(** [Math.max] on two arguments. *)
Definition Math_max (x y : Q) : Q := if Qle_bool x y then y else x.

(** [x < y] and [x >= y] on numbers. *)
Definition lt (x y : Q) : bool := negb (Qle_bool y x).
Definition ge (x y : Q) : bool := Qle_bool y x.
Definition gt (x y : Q) : bool := negb (Qle_bool x y).

(** Truncation toward zero and the remainder operator [x % y]. *)
Definition trunc (x : Q) : Z := Z.quot (Qnum x) (Zpos (Qden x)).
Definition rem (x y : Q) : Q := (x - y * inject_Z (trunc (x / y)))%Q.

(** An integer written in decimal, as [String(n)] and string
    concatenation do for an integral number. *)
Definition toString (n : Z) : string := NilZero.string_of_int (Z.to_int n).

(** [s.slice(n)]. *)
Fixpoint drop (n : nat) (s : string) : string :=
  match n, s with
  | O, _ => s
  | S _, EmptyString => EmptyString
  | S n', String _ s' => drop n' s'
  end.

(** [s.replace(pat, rep)] with a string pattern: only the first
    occurrence of [pat] is replaced. *)
Fixpoint replace (pat rep s : string) : string :=
  if String.prefix pat s then rep ++ drop (String.length pat) s
  else match s with
       | EmptyString => EmptyString
       | String c s' => String c (replace pat rep s')
       end.

(** [s.split(sep)] with a one-character separator. *)
Fixpoint split (sep : ascii) (s : string) : list string :=
  match s with
  | EmptyString => [EmptyString]
  | String c s' =>
      if Ascii.eqb c sep then EmptyString :: split sep s'
      else match split sep s' with
           | h :: t => String c h :: t
           | [] => [String c EmptyString]
           end
  end.

(** [xs.map((x, i) => f i x)]: the callback also receives the index. *)
Fixpoint mapi_from {A B : Type} (i : nat) (f : nat -> A -> B) (xs : list A)
  : list B :=
  match xs with
  | [] => []
  | x :: xs' => f i x :: mapi_from (S i) f xs'
  end.
Definition mapi {A B : Type} (f : nat -> A -> B) (xs : list A) : list B :=
  mapi_from 0 f xs.

End JS.

Arguments JS.Math_floor : simpl never.
Arguments JS.Math_round : simpl never.
Arguments JS.toString : simpl never.
Arguments JS.lt : simpl never.
Arguments JS.ge : simpl never.

(** [a === b] on strings. *)
Notation "a === b" := (String.eqb a b) (at level 70, no associativity).

(** ** Data model *)

(** [Repository['status']]. *)
Inductive RepoStatus := reviewing | approved | rejected | deploying | deployed.

(** [ReviewData['status']]. *)
Inductive ReviewStatus := pending | review_completed | review_failed.

(** [Pipeline['stage']]. *)
Inductive Stage := build | test | security | deploy | completed | failed.

(** [Pipeline['environment']]. *)
Inductive Environment := staging | production.

Definition Stage_eqb (a b : Stage) : bool :=
  match a, b with
  | build, build | test, test | security, security
  | deploy, deploy | completed, completed | failed, failed => true
  | _, _ => false
  end.

Module Repository.
Record t := mk {
  id : string;
  name : string;
  owner : string;
  branch : string;
  lastCommit : string;
  qualityScore : Q;
  status : RepoStatus;
  pullRequests : Q;
  url : string;
  createdAt : Z;
  isAnalyzing : option bool   (* optional field *)
  }.

(** [{ ...repo, status }] *)
Definition with_status (repo : t) (s : RepoStatus) : t :=
  mk (id repo) (name repo) (owner repo) (branch repo) (lastCommit repo)
     (qualityScore repo) s (pullRequests repo) (url repo) (createdAt repo)
     (isAnalyzing repo).

(** [{ ...repo, qualityScore, status, pullRequests, isAnalyzing: false }] *)
Definition with_analysis (repo : t) (score : Q) (s : RepoStatus) (prs : Q)
  : t :=
  mk (id repo) (name repo) (owner repo) (branch repo) (lastCommit repo)
     score s prs (url repo) (createdAt repo) (Some false).

(** [{ ...repo, lastCommit, qualityScore }] *)
Definition with_refresh (repo : t) (commit : string) (score : Q) : t :=
  mk (id repo) (name repo) (owner repo) (branch repo) commit
     score (status repo) (pullRequests repo) (url repo) (createdAt repo)
     (isAnalyzing repo).
End Repository.

Module ReviewData.
Record t := mk {
  id : string;
  repository : string;
  pullRequest : string;
  author : string;
  qualityScore : Q;
  suggestions : Q;
  status : ReviewStatus;
  timestamp : string;
  repositoryId : string
  }.
End ReviewData.

Module Pipeline.
Record t := mk {
  id : string;
  repository : string;
  repositoryId : string;
  branch : string;
  stage : Stage;
  progress : Q;
  startTime : string;
  duration : string;
  qualityGate : bool;
  environment : Environment
  }.

(** [{ ...p, stage, progress, duration }] *)
Definition with_tick (p : t) (s : Stage) (pr : Q) (d : string) : t :=
  mk (id p) (repository p) (repositoryId p) (branch p) s pr
     (startTime p) d (qualityGate p) (environment p).

(** [{ ...p, stage: 'failed', progress: p.progress }] *)
Definition with_failed (p : t) : t :=
  mk (id p) (repository p) (repositoryId p) (branch p) failed (progress p)
     (startTime p) (duration p) (qualityGate p) (environment p).
End Pipeline.

(** ** Timers and effects *)

(** The closure of the [setInterval] callback of [triggerDeployment]: the
    captured [newPipeline.id] and [repo.id], and the local variables
    [progress] and [currentStageIndex] the callback updates.  [cleared]
    records [clearInterval(interval)]. *)
Module Interval.
Record t := mk {
  pipelineId : string;
  repoId : string;
  progress : Q;
  currentStageIndex : Z;
  cleared : bool
}.
End Interval.

(** The callbacks passed to [setTimeout], with what each captures. *)
Inductive TimeoutCallback :=
| AnalysisCallback (newRepoId name : string)   (* addRepository *)
| ManualReviewCallback (repoId : string)       (* triggerManualReview *)
| RefreshCallback.                             (* refreshRepositories *)

Module Timeout.
Record t := mk {
  callback : TimeoutCallback;
  delay : Z;
  fired : bool
}.
End Timeout.

(** What a handler does besides computing: the calls it makes, in order. *)
Inductive Effect :=
| SetRepositories
| SetReviews
| SetPipelines
| SetIsRefreshing
| SetTimeout
| SetInterval
| ClearInterval
| Alert (msg : string)
| ConsoleError (label msg : string).

(** The values drawn by [Math.random()] in the timeout callbacks.  The draws
    made inside a [map] callback are indexed by the position visited. *)
Record Draws := mkDraws {
  dScore : Q;                 (* analysisScore / newScore *)
  dPullRequests : nat -> Q;   (* pullRequests of the analysed repository *)
  dLabel : Q;                 (* pull-request label of the new review *)
  dSuggestions : Q;           (* suggestions of the new review *)
  dCommit : nat -> Q;         (* refresh: lastCommit coin *)
  dDelta : nat -> Q           (* refresh: qualityScore drift *)
}.

(** ** Application state *)

Record AppState := mkState {
  repositories : list Repository.t;     (* Home *)
  reviews : list ReviewData.t;          (* Home *)
  isRefreshing : bool;                  (* Home *)
  pipelines : list Pipeline.t;          (* DeploymentPipeline *)
  timeouts : list Timeout.t;            (* handle = position *)
  intervals : list Interval.t;          (* handle = position *)
  effects : list Effect                 (* calls made so far, oldest first *)
}.

Definition perform (e : Effect) (st : AppState) : AppState :=
  mkState (repositories st) (reviews st) (isRefreshing st) (pipelines st)
          (timeouts st) (intervals st) (effects st ++ [e]).

Definition setRepositories (f : list Repository.t -> list Repository.t)
  (st : AppState) : AppState :=
  perform SetRepositories
    (mkState (f (repositories st)) (reviews st) (isRefreshing st)
             (pipelines st) (timeouts st) (intervals st) (effects st)).

Definition setReviews (f : list ReviewData.t -> list ReviewData.t)
  (st : AppState) : AppState :=
  perform SetReviews
    (mkState (repositories st) (f (reviews st)) (isRefreshing st)
             (pipelines st) (timeouts st) (intervals st) (effects st)).

Definition setIsRefreshing (b : bool) (st : AppState) : AppState :=
  perform SetIsRefreshing
    (mkState (repositories st) (reviews st) b
             (pipelines st) (timeouts st) (intervals st) (effects st)).

Definition setPipelines (f : list Pipeline.t -> list Pipeline.t)
  (st : AppState) : AppState :=
  perform SetPipelines
    (mkState (repositories st) (reviews st) (isRefreshing st)
             (f (pipelines st)) (timeouts st) (intervals st) (effects st)).

Definition setTimeout (cb : TimeoutCallback) (ms : Z) (st : AppState)
  : AppState :=
  perform SetTimeout
    (mkState (repositories st) (reviews st) (isRefreshing st) (pipelines st)
             (timeouts st ++ [Timeout.mk cb ms false]) (intervals st)
             (effects st)).

Definition setInterval (iv : Interval.t) (st : AppState) : AppState :=
  perform SetInterval
    (mkState (repositories st) (reviews st) (isRefreshing st) (pipelines st)
             (timeouts st) (intervals st ++ [iv]) (effects st)).

(** Replace the entry at position [h], when there is one. *)
Fixpoint update_nth {A : Type} (h : nat) (f : A -> A) (xs : list A) : list A :=
  match xs, h with
  | [], _ => []
  | x :: xs', O => f x :: xs'
  | x :: xs', S h' => x :: update_nth h' f xs'
  end.

Definition set_intervals (f : list Interval.t -> list Interval.t)
  (st : AppState) : AppState :=
  mkState (repositories st) (reviews st) (isRefreshing st) (pipelines st)
          (timeouts st) (f (intervals st)) (effects st).

Definition set_timeouts (f : list Timeout.t -> list Timeout.t)
  (st : AppState) : AppState :=
  mkState (repositories st) (reviews st) (isRefreshing st) (pipelines st)
          (f (timeouts st)) (intervals st) (effects st).

(** [clearInterval(interval)] for the handle [h]. *)
Definition clearInterval (h : nat) (st : AppState) : AppState :=
  perform ClearInterval
    (set_intervals
       (update_nth h (fun iv =>
          Interval.mk (Interval.pipelineId iv) (Interval.repoId iv)
                      (Interval.progress iv) (Interval.currentStageIndex iv)
                      true))
       st).

(** Assignment to the captured locals [progress] and [currentStageIndex]. *)
Definition assign_locals (h : nat) (progress : Q) (index : Z) (st : AppState)
  : AppState :=
  set_intervals
    (update_nth h (fun iv =>
       Interval.mk (Interval.pipelineId iv) (Interval.repoId iv)
                   progress index (Interval.cleared iv)))
    st.

(** A timeout runs once: mark the handle [h] as spent. *)
Definition mark_fired (h : nat) (st : AppState) : AppState :=
  set_timeouts
    (update_nth h (fun t =>
       Timeout.mk (Timeout.callback t) (Timeout.delay t) true))
    st.

(** ** Home: repository registry and reviews *)

(** [updateRepositoryStatus]: overwrite the status of the entries whose id is
    [repoId]. *)
Definition updateRepositoryStatus (repoId : string) (status : RepoStatus)
  : AppState -> AppState :=
  setRepositories
    (map (fun repo =>
            if Repository.id repo === repoId
            then Repository.with_status repo status
            else repo)).

(** The score classification shared by the analysis callback of
    [addRepository] and by [triggerManualReview]:
    [score >= 85 ? 'approved' : score >= 70 ? 'reviewing' : 'rejected']. *)
Definition classify (score : Q) : RepoStatus :=
  if JS.ge score 85 then approved
  else if JS.ge score 70 then reviewing
  else rejected.

(** [Math.floor(Math.random() * 40) + 60] *)
Definition drawScore (random : Q) : Z := JS.Math_floor (random * 40) + 60.

(** [repoUrl.replace('https://github.com/', '').split('/')] *)
Definition urlParts (repoUrl : string) : list string :=
  JS.split "/" (JS.replace "https://github.com/" "" repoUrl).

(** The [try] block of [addRepository]: [inl msg] is [throw new Error(msg)].
    Both throws come before the first state update.  The clock reading [now]
    stands for both [Date.now()] and [new Date()]. *)
Definition addRepository_try (now : Z) (repoUrl : string) (st : AppState)
  : string + AppState :=
  let parts := urlParts repoUrl in
  if negb (Nat.eqb (List.length parts) 2) then
    inl "Invalid GitHub URL format"
  else
    let owner := nth 0 parts "" in
    let name := nth 1 parts "" in
    if existsb (fun repo => (Repository.owner repo === owner)
                            && (Repository.name repo === name))
               (repositories st)
    then inl "Repository already connected"
    else
      let newRepo :=
        Repository.mk (JS.toString now) name owner "main" "just now"
                      0%Q reviewing 0%Q repoUrl now (Some true) in
      let st := setRepositories (fun prev => prev ++ [newRepo]) st in
      inr (setTimeout (AnalysisCallback (Repository.id newRepo) name) 3000 st).

(** [addRepository]: the returned boolean and the state left behind. *)
Definition addRepository (now : Z) (repoUrl : string) (st : AppState)
  : bool * AppState :=
  match addRepository_try now repoUrl st with
  | inr st' => (true, st')
  | inl msg => (false, perform (ConsoleError "Failed to add repository:" msg) st)
  end.

(** The callback [addRepository] schedules, run at clock reading [now]. *)
Definition analysisCallback (now : Z) (d : Draws) (newRepoId name : string)
  (st : AppState) : AppState :=
  let analysisScore := drawScore (dScore d) in
  let analysisStatus := classify (inject_Z analysisScore) in
  let st :=
    setRepositories
      (JS.mapi (fun i repo =>
         if Repository.id repo === newRepoId
         then Repository.with_analysis repo
                (inject_Z analysisScore) analysisStatus
                (inject_Z (JS.Math_floor (dPullRequests d i * 5) + 1))
         else repo))
      st in
  let newReview :=
    ReviewData.mk (JS.toString now) name
      ("#" ++ JS.toString (JS.Math_floor (dLabel d * 200 + 1)))%string
      "ai-analysis"
      (inject_Z analysisScore)
      (inject_Z (JS.Math_floor (dSuggestions d * 10) + 1))
      review_completed "just now" newRepoId in
  setReviews (fun prev => newReview :: prev) st.

(** [removeRepository] *)
Definition removeRepository (repoId : string) (st : AppState) : AppState :=
  let st :=
    setRepositories
      (filter (fun repo => negb (Repository.id repo === repoId))) st in
  setReviews
    (filter (fun review => negb (ReviewData.repositoryId review === repoId)))
    st.

(** [refreshRepositories] and its callback. *)
Definition refreshRepositories (st : AppState) : AppState :=
  setTimeout RefreshCallback 2000 (setIsRefreshing true st).

Definition refreshCallback (d : Draws) (st : AppState) : AppState :=
  let st :=
    setRepositories
      (JS.mapi (fun i repo =>
         Repository.with_refresh repo
           (if JS.gt (dCommit d i) (1 # 2) then "just now"
            else Repository.lastCommit repo)
           (JS.Math_max 50
              (Repository.qualityScore repo
               + inject_Z (JS.Math_floor (dDelta d i * 10)) - 5))))
      st in
  setIsRefreshing false st.

(** ** RepositoryManager *)

(** [triggerManualReview]; [onUpdateStatus] is [updateRepositoryStatus]. *)
Definition triggerManualReview (repoId : string) (st : AppState) : AppState :=
  let st := updateRepositoryStatus repoId reviewing st in
  setTimeout (ManualReviewCallback repoId) 3000 st.

Definition manualReviewCallback (d : Draws) (repoId : string) (st : AppState)
  : AppState :=
  let newScore := drawScore (dScore d) in
  let newStatus := classify (inject_Z newScore) in
  updateRepositoryStatus repoId newStatus st.

(** A timeout fires at most once. *)
Definition fireTimeout (h : nat) (now : Z) (d : Draws) (st : AppState)
  : AppState :=
  match nth_error (timeouts st) h with
  | Some t =>
      if Timeout.fired t then st
      else
        let st := mark_fired h st in
        match Timeout.callback t with
        | AnalysisCallback newRepoId name =>
            analysisCallback now d newRepoId name st
        | ManualReviewCallback repoId => manualReviewCallback d repoId st
        | RefreshCallback => refreshCallback d st
        end
  | None => st
  end.

(** ** DeploymentPipeline *)

(** [const stages = ['build', 'test', 'security', 'deploy', 'completed']] *)
Definition stages : list Stage := [build; test; security; deploy; completed].

(** [stages[i]]; [None] is [undefined]. *)
Definition stages_at (i : Z) : option Stage :=
  if Z.ltb i 0 then None else nth_error stages (Z.to_nat i).

(** The template string of the [duration] field. *)
Definition durationLabel (progress : Q) : string :=
  (JS.toString (JS.Math_floor (progress / 10)) ++ "m "
   ++ JS.toString (JS.Math_floor (JS.rem progress 10 * 6)) ++ "s")%string.

(** The object written for the run [p] by a tick.  [stages[i]] is never
    [undefined] here (see [tick_index_in_range]); the stage is kept in
    that case. *)
Definition tickUpdate (pipelineId : string) (index : Z) (progress : Q)
  (p : Pipeline.t) : Pipeline.t :=
  if Pipeline.id p === pipelineId then
    Pipeline.with_tick p
      (match stages_at index with Some s => s | None => Pipeline.stage p end)
      (inject_Z (JS.Math_round progress))
      (durationLabel progress)
  else p.

(** [triggerDeployment] *)
Definition triggerDeployment (now : Z) (repo : Repository.t)
  (environment : Environment) (st : AppState) : AppState :=
  if JS.lt (Repository.qualityScore repo) 85 then
    perform (Alert "Cannot deploy: Quality score must be ≥85%") st
  else
    let newPipeline :=
      Pipeline.mk (JS.toString now) (Repository.name repo)
                  (Repository.id repo) (Repository.branch repo)
                  build 0%Q "just now" "0s" true environment in
    let st := setPipelines (fun prev => newPipeline :: prev) st in
    let st := updateRepositoryStatus (Repository.id repo) deploying st in
    setInterval
      (Interval.mk (Pipeline.id newPipeline) (Repository.id repo) 0%Q 0 false)
      st.

(** The body of the interval callback of handle [h], with [random] the value
    of [Math.random()]. *)
Definition intervalCallback (h : nat) (iv : Interval.t) (random : Q)
  (st : AppState) : AppState :=
  let progress := (Interval.progress iv + (random * 15 + 5))%Q in
  let '(progress, currentStageIndex, st) :=
    if JS.ge progress 100 then
      let st := updateRepositoryStatus (Interval.repoId iv) deployed st in
      (100%Q, Z.of_nat (List.length stages) - 1, clearInterval h st)
    else
      (progress,
       JS.Math_floor (progress / 100 * inject_Z (Z.of_nat (List.length stages) - 1)),
       st) in
  let st := assign_locals h progress currentStageIndex st in
  setPipelines
    (map (tickUpdate (Interval.pipelineId iv) currentStageIndex progress)) st.

(** An interval fires until it is cleared. *)
Definition fireInterval (h : nat) (random : Q) (st : AppState) : AppState :=
  match nth_error (intervals st) h with
  | Some iv => if Interval.cleared iv then st
               else intervalCallback h iv random st
  | None => st
  end.

(** [cancelDeployment] *)
Definition cancelDeployment (pipelineId : string) : AppState -> AppState :=
  setPipelines
    (map (fun p =>
            if (Pipeline.id p === pipelineId)
               && negb (Stage_eqb (Pipeline.stage p) completed)
               && negb (Stage_eqb (Pipeline.stage p) failed)
            then Pipeline.with_failed p
            else p)).

(** [retryDeployment] *)
Definition retryDeployment (now : Z) (pipelineId : string) (st : AppState)
  : AppState :=
  match find (fun p => Pipeline.id p === pipelineId) (pipelines st) with
  | Some pipeline =>
      match find (fun r => Repository.id r === Pipeline.repositoryId pipeline)
                 (repositories st) with
      | Some repo => triggerDeployment now repo (Pipeline.environment pipeline) st
      | None => st
      end
  | None => st
  end.

(** ** Initial state *)

(** The arrays passed to [useState]; [t0] is the clock reading of the first
    render ([createdAt: new Date()]). *)
Definition initialRepositories (t0 : Z) : list Repository.t :=
  [ Repository.mk "1" "react-dashboard" "mycompany" "main" "2h ago"
      92%Q approved 3%Q "https://github.com/mycompany/react-dashboard" t0 None;
    Repository.mk "2" "api-service" "mycompany" "feature/auth" "15m ago"
      87%Q deploying 1%Q "https://github.com/mycompany/api-service" t0 None;
    Repository.mk "3" "mobile-app" "mycompany" "develop" "1h ago"
      74%Q reviewing 2%Q "https://github.com/mycompany/mobile-app" t0 None ].

Definition initialReviews : list ReviewData.t :=
  [ ReviewData.mk "1" "react-dashboard" "#156" "john.doe" 92%Q 3%Q
      review_completed "2h ago" "1";
    ReviewData.mk "2" "api-service" "#89" "jane.smith" 87%Q 5%Q
      review_completed "15m ago" "2";
    ReviewData.mk "3" "mobile-app" "#23" "mike.wilson" 74%Q 8%Q
      pending "5m ago" "3" ].

Definition initialPipelines : list Pipeline.t :=
  [ Pipeline.mk "1" "react-dashboard" "1" "main" completed 100%Q
      "2h ago" "4m 32s" true production;
    Pipeline.mk "2" "api-service" "2" "feature/auth" deploy 75%Q
      "15m ago" "3m 45s" true staging;
    Pipeline.mk "3" "mobile-app" "3" "develop" failed 45%Q
      "1h ago" "2m 15s" false staging ].

Definition initialState (t0 : Z) : AppState :=
  mkState (initialRepositories t0) initialReviews false initialPipelines
          [] [] [].

(** ** Events *)

(** What can happen to the page: a user action reaching a handler, or a
    timer firing.  Each event carries the clock readings and random draws
    its handler consumes. *)
Inductive Event :=
| EAddRepository (now : Z) (repoUrl : string)
| ERemoveRepository (repoId : string)
| ERefreshRepositories
| EManualReview (repoId : string)
| ETimeout (h : nat) (now : Z) (d : Draws)
| ETriggerDeployment (now : Z) (repo : Repository.t) (environment : Environment)
| ETick (h : nat) (random : Q)
| ECancelDeployment (pipelineId : string)
| ERetryDeployment (now : Z) (pipelineId : string).

Definition step (st : AppState) (e : Event) : AppState :=
  match e with
  | EAddRepository now repoUrl => snd (addRepository now repoUrl st)
  | ERemoveRepository repoId => removeRepository repoId st
  | ERefreshRepositories => refreshRepositories st
  | EManualReview repoId => triggerManualReview repoId st
  | ETimeout h now d => fireTimeout h now d st
  | ETriggerDeployment now repo environment =>
      triggerDeployment now repo environment st
  | ETick h random => fireInterval h random st
  | ECancelDeployment pipelineId => cancelDeployment pipelineId st
  | ERetryDeployment now pipelineId => retryDeployment now pipelineId st
  end.

Definition exec (st : AppState) (es : list Event) : AppState :=
  fold_left step es st.

(** [Math.random()] returns a value in [[0, 1)]. *)
Definition unit_draw (r : Q) : bool := Qle_bool 0 r && JS.lt r 1.

(** The draw of a tick is in range. *)
Definition draws_ok (e : Event) : bool :=
  match e with
  | ETick _ random => unit_draw random
  | _ => true
  end.

(** The clock reading that names a new run is not already the id of a run. *)
Definition unused_id (now : Z) (st : AppState) : bool :=
  forallb (fun p => negb (Pipeline.id p === JS.toString now)) (pipelines st).

Definition clock_fresh (st : AppState) (e : Event) : bool :=
  match e with
  | ETriggerDeployment now _ _ => unused_id now st
  | ERetryDeployment now _ => unused_id now st
  | _ => true
  end.

(** A trace whose ticks draw in range. *)
Definition draws_ok_trace (es : list Event) : bool := forallb draws_ok es.

(** A trace whose ticks draw in range and whose runs get unused ids. *)
Fixpoint wf_trace (st : AppState) (es : list Event) : bool :=
  match es with
  | [] => true
  | e :: es' => draws_ok e && clock_fresh st e && wf_trace (step st e) es'
  end.

(** The timeout of handle [h] is scheduled with callback [cb] and has not
    run yet. *)
Definition scheduled (st : AppState) (h : nat) (cb : TimeoutCallback) : Prop :=
  exists ms, nth_error (timeouts st) h = Some (Timeout.mk cb ms false).

(** The segments the specification asks for: the URL with the prefix
    [https://github.com/] stripped when it starts with it, split on [/]. *)
Definition stripPrefix_spec (repoUrl : string) : string :=
  if String.prefix "https://github.com/" repoUrl
  then JS.drop (String.length "https://github.com/") repoUrl
  else repoUrl.
Definition urlParts_spec (repoUrl : string) : list string :=
  JS.split "/" (stripPrefix_spec repoUrl).

(** ** Invariants of the pipeline simulator *)

(** The recorded progress of a run is an integer of [[0, 100]]. *)
Definition progress_in_range (p : Pipeline.t) : Prop :=
  exists n : Z, Pipeline.progress p = inject_Z n /\ 0 <= n <= 100.

(** The progress accumulated by an interval is in [[0, 100]]. *)
Definition accumulator_in_range (iv : Interval.t) : Prop :=
  (0 <= Interval.progress iv)%Q /\ (Interval.progress iv <= 100)%Q.

Definition progress_ok (st : AppState) : Prop :=
  Forall progress_in_range (pipelines st) /\
  Forall accumulator_in_range (intervals st).

(** The runs named by an interval record its accumulated progress, rounded. *)
Definition tracks (iv : Interval.t) (p : Pipeline.t) : Prop :=
  Pipeline.id p = Interval.pipelineId iv ->
  Pipeline.progress p = inject_Z (JS.Math_round (Interval.progress iv)).

(** Runs have distinct ids, intervals drive distinct runs of the list, and
    each interval is tracked by its run. *)
Definition timers_consistent (st : AppState) : Prop :=
  NoDup (map Pipeline.id (pipelines st)) /\
  NoDup (map Interval.pipelineId (intervals st)) /\
  (forall iv, In iv (intervals st) ->
     In (Interval.pipelineId iv) (map Pipeline.id (pipelines st))) /\
  (forall iv p, In iv (intervals st) -> In p (pipelines st) -> tracks iv p).

(** The accumulated progress after a tick that starts from [progress] with
    the draw [random]: [progress + (random * 15 + 5)], capped at 100. *)
Definition nextProgress (progress random : Q) : Q :=
  if JS.ge (progress + (random * 15 + 5)) 100 then 100%Q
  else (progress + (random * 15 + 5))%Q.

(** The interval of handle [h] fires once per draw of the list. *)
Definition ticks (h : nat) (draws : list Q) (st : AppState) : AppState :=
  fold_left (fun s random => fireInterval h random s) draws st.

(** ** A sample session

    Repository "1" of the initial page (score 92) is deployed to staging at
    clock reading 1700000000000; the run ticks once with draw 1/2 and is
    then cancelled. *)
Definition sampleRepo : Repository.t :=
  Repository.mk "1" "react-dashboard" "mycompany" "main" "2h ago"
    92%Q approved 3%Q "https://github.com/mycompany/react-dashboard" 0 None.

(** A repository scoring 80, below the deployment threshold. *)
Definition lowRepo : Repository.t :=
  Repository.mk "3" "mobile-app" "mycompany" "develop" "1h ago"
    80%Q reviewing 2%Q "https://github.com/mycompany/mobile-app" 0 None.

Definition sampleStart : list Event :=
  [ETriggerDeployment 1700000000000 sampleRepo staging; ETick 0 (1 # 2)].

Definition sampleRunning : AppState := exec (initialState 0) sampleStart.

Definition sampleCancelled : AppState :=
  cancelDeployment "1700000000000" sampleRunning.

(** The stage and progress of the runs named [pipelineId]. *)
Definition runView (pipelineId : string) (st : AppState) : list (Stage * Q) :=
  map (fun p => (Pipeline.stage p, Pipeline.progress p))
      (filter (fun p => Pipeline.id p === pipelineId) (pipelines st)).

(** The sample session goes on: the run is cancelled, and the interval
    fires again. *)
Definition sampleRest : list Event :=
  [ECancelDeployment "1700000000000"; ETick 0 (1 # 2)].

(** A repository connected on the initial page; its analysis is pending. *)
Definition sampleConnected : AppState :=
  snd (addRepository 1700000000000 "https://github.com/owner/name"
         (initialState 0)).

(** A run that reads 100 before it completes: five ticks with draw 373/375
    accumulate 99.6. *)
Definition sampleAlmostDone : AppState :=
  ticks 0 (repeat (373 # 375) 5)
    (triggerDeployment 1700000000000 sampleRepo staging (initialState 0)).

(** Draws used in the samples. *)
Definition sampleDraws : Draws :=
  mkDraws (7 # 10) (fun _ => 1 # 2) (1 # 2) (1 # 2) (fun _ => 1 # 2)
          (fun _ => 1 # 2).

(** ** Values the components derive from the state *)

(** DeploymentPipeline:
    [pipelines.filter(p => p.stage !== 'completed' && p.stage !== 'failed')] *)
Definition activePipelines (ps : list Pipeline.t) : list Pipeline.t :=
  filter (fun p => negb (Stage_eqb (Pipeline.stage p) completed)
                   && negb (Stage_eqb (Pipeline.stage p) failed)) ps.

(** DeploymentPipeline, "Success Rate":
    [pipelines.length > 0
       ? Math.round((pipelines.filter(p => p.stage === 'completed').length
                     / pipelines.length) * 100)
       : 0] *)
Definition successRate (ps : list Pipeline.t) : Z :=
  if Nat.ltb 0 (List.length ps) then
    JS.Math_round
      (inject_Z (Z.of_nat (List.length
                   (filter (fun p => Stage_eqb (Pipeline.stage p) completed) ps)))
       / inject_Z (Z.of_nat (List.length ps)) * 100)
  else 0.

(** Home and AIChat, average quality score:
    [repositories.length > 0
       ? Math.round(repositories.reduce((acc, repo) => acc + repo.qualityScore, 0)
                    / repositories.length)
       : 0] *)
Definition averageQualityScore (rs : list Repository.t) : Z :=
  if Nat.ltb 0 (List.length rs) then
    JS.Math_round
      (fold_left (fun acc repo => acc + Repository.qualityScore repo)%Q rs 0%Q
       / inject_Z (Z.of_nat (List.length rs)))
  else 0.

(** CodeReviewPanel, the same average over the reviews. *)
Definition averageReviewScore (rs : list ReviewData.t) : Z :=
  if Nat.ltb 0 (List.length rs) then
    JS.Math_round
      (fold_left (fun acc r => acc + ReviewData.qualityScore r)%Q rs 0%Q
       / inject_Z (Z.of_nat (List.length rs)))
  else 0.

(** CodeReviewPanel: the [filter] state, ['all' | 'completed' | 'pending' |
    'failed'], and [review.status === filter]. *)
Inductive ReviewFilter :=
  filter_all | filter_completed | filter_pending | filter_failed.

Definition statusIs (s : ReviewStatus) (f : ReviewFilter) : bool :=
  match s, f with
  | review_completed, filter_completed
  | pending, filter_pending
  | review_failed, filter_failed => true
  | _, _ => false
  end.

Definition filterIsAll (f : ReviewFilter) : bool :=
  match f with filter_all => true | _ => false end.

(** [reviews.filter(review => filter === 'all' || review.status === filter)] *)
Definition filteredReviews (f : ReviewFilter) (rs : list ReviewData.t)
  : list ReviewData.t :=
  filter (fun review => filterIsAll f || statusIs (ReviewData.status review) f)
         rs.

(** AIChat: [repositories.filter(r => r.qualityScore >= 85)] and
    [repositories.filter(r => r.qualityScore < 85)]. *)
Definition readyRepos (rs : list Repository.t) : list Repository.t :=
  filter (fun r => JS.ge (Repository.qualityScore r) 85) rs.

Definition blockedRepos (rs : list Repository.t) : list Repository.t :=
  filter (fun r => JS.lt (Repository.qualityScore r) 85) rs.

(** Every repository that is being analysed has its analysis scheduled. *)
Definition analysing_scheduled (st : AppState) : Prop :=
  forall repo,
    In repo (repositories st) ->
    Repository.isAnalyzing repo = Some true ->
    exists h name,
      scheduled st h (AnalysisCallback (Repository.id repo) name).

(** The draws of a refresh are in range. *)
Definition refresh_draws_ok (d : Draws) : Prop :=
  forall i, (0 <= dDelta d i)%Q /\ (dDelta d i < 1)%Q.

(** The run of an interval has completed: the interval is cleared at 100,
    its runs are [completed] with progress 100 and its repository is
    [deployed]. *)
Definition run_completed (h : nat) (iv : Interval.t) (st : AppState) : Prop :=
  nth_error (intervals st) h
  = Some (Interval.mk (Interval.pipelineId iv) (Interval.repoId iv)
            100%Q 4 true) /\
  (forall p, In p (pipelines st) ->
     Pipeline.id p = Interval.pipelineId iv ->
     Pipeline.stage p = completed /\ Pipeline.progress p = 100%Q) /\
  (forall r, In r (repositories st) ->
     Repository.id r = Interval.repoId iv ->
     Repository.status r = deployed).

(** A string without [/]. *)
Fixpoint no_slash (s : string) : bool :=
  match s with
  | EmptyString => true
  | String c s' => negb (Ascii.eqb c "/") && no_slash s'
  end.

(** The URL of a repository, as the page writes it for its own
    repositories: [https://github.com/<owner>/<name>]. *)
Definition githubUrl (owner name : string) : string :=
  ("https://github.com/" ++ owner ++ "/" ++ name)%string.

(** The fields of a repository that say which repository it is. *)
Definition sameRepository (a b : Repository.t) : Prop :=
  Repository.id a = Repository.id b /\
  Repository.name a = Repository.name b /\
  Repository.owner a = Repository.owner b /\
  Repository.branch a = Repository.branch b /\
  Repository.url a = Repository.url b /\
  Repository.createdAt a = Repository.createdAt b.

(** ** The stage formula read on the four named stages

    The stage list as the specification names it, and the stage its formula
    [floor(progress / 100 * (numStages - 1))] gives when [numStages] is the
    length of that list. *)
Definition stages_spec : list Stage := [build; test; security; deploy].

Definition stage_spec (progress : Q) : option Stage :=
  nth_error stages_spec
    (Z.to_nat
       (JS.Math_floor
          (progress / 100
           * inject_Z (Z.of_nat (List.length stages_spec) - 1)))).

(** A run with 15 and then 30 accumulated: ticks with draw 2/3 add 15. *)
Definition sampleAtFifteen : AppState :=
  ticks 0 [2 # 3]
    (triggerDeployment 1700000000000 sampleRepo staging (initialState 0)).

Definition sampleAtThirty : AppState := fireInterval 0 (2 # 3) sampleAtFifteen.

(** Two deployments triggered at the same clock reading: the two runs share
    their id.  The first interval ticks with draw 1/2, then the second with
    draw 0. *)
Definition collisionStart : list Event :=
  [ETriggerDeployment 1700000000000 sampleRepo staging;
   ETriggerDeployment 1700000000000 sampleRepo production;
   ETick 0 (1 # 2)].

Definition collisionRest : list Event := [ETick 1 0].

(** * Properties *)

(** ** Numbers *)

Lemma lt_spec (x y : Q) : JS.lt x y = true <-> (x < y)%Q.
Proof.
  unfold JS.lt. rewrite negb_true_iff.
  split; intro H.
  - apply Qnot_le_lt. intro Hle. apply Qle_bool_iff in Hle. congruence.
  - destruct (Qle_bool y x) eqn:E; [|reflexivity].
    apply Qle_bool_iff in E. exfalso. exact (Qlt_not_le _ _ H E).
Qed.

Lemma ge_spec (x y : Q) : JS.ge x y = true <-> (y <= x)%Q.
Proof. unfold JS.ge. apply Qle_bool_iff. Qed.

Lemma lt_ge (x y : Q) : JS.lt x y = negb (JS.ge x y).
Proof. reflexivity. Qed.

Lemma ge_false (x y : Q) : JS.ge x y = false <-> (x < y)%Q.
Proof.
  rewrite <- lt_spec, lt_ge. destruct (JS.ge x y); simpl; intuition congruence.
Qed.

Lemma unit_draw_spec (r : Q) : unit_draw r = true <-> (0 <= r /\ r < 1)%Q.
Proof.
  unfold unit_draw. rewrite andb_true_iff, Qle_bool_iff, lt_spec. tauto.
Qed.

(** [Math.floor x] is the integer [k] with [k <= x < k + 1]. *)
Lemma floor_spec (x : Q) (k : Z) :
  JS.Math_floor x = k <-> (inject_Z k <= x /\ x < inject_Z (k + 1))%Q.
Proof.
  unfold JS.Math_floor. split.
  - intros <-. split; [apply Qfloor_le | apply Qlt_floor].
  - intros [Hlo Hhi].
    assert (H1 : k <= Qfloor x).
    { rewrite <- (Qfloor_Z k). now apply Qfloor_resp_le. }
    assert (H2 : Qfloor x < k + 1).
    { rewrite Zlt_Qlt. eapply Qle_lt_trans; [apply Qfloor_le | exact Hhi]. }
    lia.
Qed.

Lemma floor_range (x : Q) (a b : Z) :
  (inject_Z a <= x)%Q -> (x < inject_Z b)%Q -> a <= JS.Math_floor x < b.
Proof.
  intros Hlo Hhi. unfold JS.Math_floor. split.
  - rewrite <- (Qfloor_Z a). now apply Qfloor_resp_le.
  - rewrite Zlt_Qlt. eapply Qle_lt_trans; [apply Qfloor_le | exact Hhi].
Qed.

Lemma round_mono (x y : Q) : (x <= y)%Q -> JS.Math_round x <= JS.Math_round y.
Proof.
  intro H. unfold JS.Math_round. apply Qfloor_resp_le.
  apply Qplus_le_l. exact H.
Qed.

Lemma round_range (x : Q) :
  (0 <= x)%Q -> (x <= 100)%Q -> 0 <= JS.Math_round x <= 100.
Proof.
  intros Hlo Hhi. unfold JS.Math_round.
  assert (H : 0 <= JS.Math_floor (x + (1 # 2)) < 101).
  { apply floor_range.
    - apply Qle_trans with x; [exact Hlo|].
      rewrite <- (Qplus_0_r x) at 1. apply Qplus_le_r. discriminate.
    - apply Qle_lt_trans with (100 + (1 # 2))%Q.
      + apply Qplus_le_l. exact Hhi.
      + reflexivity. }
  unfold JS.Math_floor in H. lia.
Qed.

(** The increment of a tick, [Math.random() * 15 + 5], is in [[5, 20)]. *)
Lemma increment_range (r : Q) :
  (0 <= r)%Q -> (r < 1)%Q -> (5 <= r * 15 + 5 /\ r * 15 + 5 < 20)%Q.
Proof.
  intros H0 H1. split.
  - rewrite <- (Qplus_0_l 5) at 1. apply Qplus_le_l.
    apply Qmult_le_0_compat; [exact H0 | discriminate].
  - setoid_replace 20%Q with (1 * 15 + 5)%Q by reflexivity.
    apply Qplus_lt_l. apply Qmult_lt_r; [reflexivity | exact H1].
Qed.

(** ** Quality gate *)

(** C3.  Triggering a deployment for a repository whose quality score is
    strictly below 85 is rejected, for either environment: the only thing
    done is the alert.  No run is created, the pipeline list is unchanged,
    and the registry (hence the status and every other field of every
    repository) is unchanged; no timer is started either. *)
Theorem triggerDeployment_rejected_below_threshold :
  forall (now : Z) (repo : Repository.t) (environment : Environment)
         (st : AppState),
    (Repository.qualityScore repo < 85)%Q ->
    let st' := triggerDeployment now repo environment st in
    pipelines st' = pipelines st /\
    repositories st' = repositories st /\
    reviews st' = reviews st /\
    intervals st' = intervals st /\
    timeouts st' = timeouts st /\
    effects st' =
      effects st ++ [Alert "Cannot deploy: Quality score must be ≥85%"].
Proof.
  intros now repo environment st Hlow st'. subst st'.
  unfold triggerDeployment.
  apply lt_spec in Hlow. rewrite Hlow.
  repeat split.
Qed.

Lemma triggerDeployment_rejected_below_threshold_witness :
  (Repository.qualityScore lowRepo < 85)%Q /\
  pipelines (triggerDeployment 1700000000000 lowRepo production (initialState 0))
  = pipelines (initialState 0).
Proof.
  split.
  - reflexivity.
  - apply (triggerDeployment_rejected_below_threshold 1700000000000
             lowRepo production (initialState 0)).
    reflexivity.
Defined.

(** ** Removing a repository *)

(** C6.  [removeRepository repoId] keeps, in their order, exactly the
    repositories whose id differs from [repoId] and exactly the reviews whose
    [repositoryId] differs from [repoId]; what is kept is kept as it was.
    Pipeline runs and their timers are not touched. *)
Theorem removeRepository_frame :
  forall (repoId : string) (st : AppState),
    let st' := removeRepository repoId st in
    (forall review, In review (reviews st') <->
       In review (reviews st) /\ ReviewData.repositoryId review <> repoId) /\
    (forall repo, In repo (repositories st') <->
       In repo (repositories st) /\ Repository.id repo <> repoId) /\
    reviews st' =
      filter (fun review => negb (ReviewData.repositoryId review === repoId))
             (reviews st) /\
    repositories st' =
      filter (fun repo => negb (Repository.id repo === repoId))
             (repositories st) /\
    pipelines st' = pipelines st /\
    intervals st' = intervals st.
Proof.
  intros repoId st st'. subst st'. unfold removeRepository. simpl.
  split; [|split; [|repeat split]].
  - intro review. rewrite filter_In, negb_true_iff, String.eqb_neq. tauto.
  - intro repo. rewrite filter_In, negb_true_iff, String.eqb_neq. tauto.
Qed.

(** ** Connecting a repository *)

Lemma length_two {A : Type} (xs : list A) :
  List.length xs = 2%nat <-> exists a b, xs = [a; b].
Proof.
  split.
  - destruct xs as [|a [|b [|c xs]]]; simpl; try discriminate.
    intros _. now exists a, b.
  - intros (a & b & ->). reflexivity.
Qed.

(** When the URL starts with the prefix, removing the first occurrence of
    the prefix is stripping it. *)
Lemma urlParts_prefixed (repoUrl : string) :
  String.prefix "https://github.com/" repoUrl = true ->
  urlParts repoUrl = urlParts_spec repoUrl.
Proof.
  intro H. unfold urlParts, urlParts_spec, stripPrefix_spec.
  rewrite H. destruct repoUrl as [|c s]; [discriminate|].
  unfold JS.replace at 1. rewrite H. reflexivity.
Qed.

(** A rejected connection only writes to the console. *)
Lemma addRepository_rejected_frame (now : Z) (repoUrl : string) (st : AppState) :
  fst (addRepository now repoUrl st) = false ->
  exists msg,
    snd (addRepository now repoUrl st)
    = perform (ConsoleError "Failed to add repository:" msg) st.
Proof.
  unfold addRepository.
  destruct (addRepository_try now repoUrl st) as [msg|st']; simpl.
  - intros _. now exists msg.
  - discriminate.
Qed.

(** C2 (amended).  [addRepository] returns [true] only when the URL, with
    the first occurrence of [https://github.com/] removed (the prefix, when
    the URL starts with it) and split on [/], has exactly two segments, and
    no connected repository has that owner and name; the segments may be
    empty.  A URL with any other number of segments is rejected with the
    format error, and a rejected connection changes neither the registry nor
    the review list and schedules nothing. *)
Theorem addRepository_requires_two_segments :
  forall (now : Z) (repoUrl : string) (st : AppState),
    (fst (addRepository now repoUrl st) = true ->
     exists owner name,
       urlParts repoUrl = [owner; name] /\
       forall repo, In repo (repositories st) ->
         ~ (Repository.owner repo = owner /\ Repository.name repo = name)) /\
    (List.length (urlParts repoUrl) <> 2%nat ->
     addRepository now repoUrl st
     = (false,
        perform (ConsoleError "Failed to add repository:"
                              "Invalid GitHub URL format") st)) /\
    (fst (addRepository now repoUrl st) = false ->
     let st' := snd (addRepository now repoUrl st) in
     repositories st' = repositories st /\
     reviews st' = reviews st /\
     timeouts st' = timeouts st) /\
    (String.prefix "https://github.com/" repoUrl = true ->
     urlParts repoUrl = urlParts_spec repoUrl).
Proof.
  intros now repoUrl st. split; [|split; [|split]].
  - unfold addRepository, addRepository_try.
    destruct (Nat.eqb (List.length (urlParts repoUrl)) 2) eqn:Hlen; simpl;
      [|discriminate].
    apply Nat.eqb_eq, length_two in Hlen. destruct Hlen as (owner & name & Hp).
    rewrite Hp. simpl.
    destruct (existsb _ (repositories st)) eqn:Hdup; simpl; [discriminate|].
    intros _. exists owner, name. split; [reflexivity|].
    intros repo Hin [Ho Hn].
    assert (Hex : existsb (fun repo0 =>
                    (Repository.owner repo0 === owner)
                    && (Repository.name repo0 === name)) (repositories st)
                  = true).
    { apply existsb_exists. exists repo. split; [exact Hin|].
      rewrite Ho, Hn, !String.eqb_refl. reflexivity. }
    congruence.
  - intro Hlen. unfold addRepository, addRepository_try.
    apply Nat.eqb_neq in Hlen. rewrite Hlen. reflexivity.
  - intros Hrej st'. subst st'.
    destruct (addRepository_rejected_frame now repoUrl st Hrej) as [msg ->].
    repeat split.
  - apply urlParts_prefixed.
Qed.

Lemma addRepository_requires_two_segments_witness :
  List.length (urlParts "https://github.com/onlyowner") <> 2%nat /\
  addRepository 1700000000000 "https://github.com/onlyowner" (initialState 0)
  = (false,
     perform (ConsoleError "Failed to add repository:"
                           "Invalid GitHub URL format") (initialState 0)).
Proof.
  split.
  - vm_compute. discriminate.
  - apply (addRepository_requires_two_segments 1700000000000
             "https://github.com/onlyowner" (initialState 0)).
    vm_compute. discriminate.
Defined.

(** C2, as stated, fails: [https://github.com/owner/] has an empty second
    segment and is accepted (a repository with an empty name joins the
    registry and its analysis is scheduled); and a URL that merely contains
    the prefix is accepted although stripping a leading prefix and splitting
    leaves five segments. *)
Lemma addRepository_accepts_empty_segment :
  ~ (forall (now : Z) (repoUrl : string) (st : AppState),
       fst (addRepository now repoUrl st) = true ->
       exists owner name,
         urlParts_spec repoUrl = [owner; name] /\ owner <> "" /\ name <> "") /\
  urlParts_spec "https://github.com/owner/" = ["owner"; ""] /\
  fst (addRepository 1700000000000 "https://github.com/owner/" (initialState 0))
  = true /\
  List.length
    (repositories
       (snd (addRepository 1700000000000 "https://github.com/owner/"
               (initialState 0))))
  = 4%nat /\
  urlParts_spec "a/https://github.com/b" = ["a"; "https:"; ""; "github.com"; "b"] /\
  fst (addRepository 1700000000000 "a/https://github.com/b" (initialState 0))
  = true.
Proof.
  split; [|repeat split].
  intro H.
  destruct (H 1700000000000 "https://github.com/owner/" (initialState 0)
              eq_refl) as (owner & name & Hp & _ & Hname).
  vm_compute in Hp. injection Hp as _ Hn. apply Hname. symmetry. exact Hn.
Qed.

(** ** Starting a run *)

Lemma triggerDeployment_accepted (now : Z) (repo : Repository.t)
  (environment : Environment) (st : AppState) :
  (85 <= Repository.qualityScore repo)%Q ->
  triggerDeployment now repo environment st
  = setInterval
      (Interval.mk (JS.toString now) (Repository.id repo) 0%Q 0 false)
      (updateRepositoryStatus (Repository.id repo) deploying
         (setPipelines
            (fun prev =>
               Pipeline.mk (JS.toString now) (Repository.name repo)
                 (Repository.id repo) (Repository.branch repo)
                 build 0%Q "just now" "0s" true environment :: prev)
            st)).
Proof.
  intro H. unfold triggerDeployment.
  apply ge_spec in H. rewrite lt_ge, H. reflexivity.
Qed.

Lemma unused_id_spec (now : Z) (st : AppState) :
  unused_id now st = true <->
  forall p, In p (pipelines st) -> Pipeline.id p <> JS.toString now.
Proof.
  unfold unused_id. rewrite forallb_forall.
  split; intros H p Hin; specialize (H p Hin).
  - now apply negb_true_iff, String.eqb_neq in H.
  - now apply negb_true_iff, String.eqb_neq.
Qed.

(** ** Retrying a run *)

(** C8 (amended).  Let [retryDeployment pipelineId] locate the run [p] and
    its owning repository [repo].  When [p] is in stage [failed] and the
    quality score of [repo] is at least 85, the retry is exactly the
    deployment trigger for [repo] and the environment of [p]: one run is put
    in front of the pipeline list, in stage [build] with progress 0, in the
    environment of [p], named by the clock reading; that identifier is new
    whenever the reading is not already the id of a run.  The runs that
    were there, [p] among them, are retained unmodified. *)
Theorem retryDeployment_creates_run :
  forall (now : Z) (pipelineId : string) (st : AppState)
         (p : Pipeline.t) (repo : Repository.t),
    find (fun q => Pipeline.id q === pipelineId) (pipelines st) = Some p ->
    Pipeline.stage p = failed ->
    find (fun r => Repository.id r === Pipeline.repositoryId p)
         (repositories st) = Some repo ->
    (85 <= Repository.qualityScore repo)%Q ->
    let st' := retryDeployment now pipelineId st in
    st' = triggerDeployment now repo (Pipeline.environment p) st /\
    exists run,
      pipelines st' = run :: pipelines st /\
      Pipeline.id run = JS.toString now /\
      (unused_id now st = true ->
       forall q, In q (pipelines st) -> Pipeline.id q <> Pipeline.id run) /\
      Pipeline.stage run = build /\
      Pipeline.progress run = 0%Q /\
      Pipeline.environment run = Pipeline.environment p /\
      Pipeline.repositoryId run = Repository.id repo /\
      In p (pipelines st').
Proof.
  intros now pipelineId st p repo Hp Hfailed Hrepo Hscore st'. subst st'.
  unfold retryDeployment. rewrite Hp, Hrepo.
  split; [reflexivity|].
  rewrite (triggerDeployment_accepted _ _ _ _ Hscore). simpl.
  eexists. split; [reflexivity|]. simpl.
  repeat split.
  - intros Hfresh q Hq. exact (proj1 (unused_id_spec now st) Hfresh q Hq).
  - right. apply find_some in Hp. tauto.
Qed.

Lemma retryDeployment_creates_run_witness :
  exists p repo,
    find (fun q => Pipeline.id q === "1700000000000")
         (pipelines sampleCancelled) = Some p /\
    Pipeline.stage p = failed /\
    find (fun r => Repository.id r === Pipeline.repositoryId p)
         (repositories sampleCancelled) = Some repo /\
    (85 <= Repository.qualityScore repo)%Q /\
    retryDeployment 1700000005000 "1700000000000" sampleCancelled
    = triggerDeployment 1700000005000 repo (Pipeline.environment p)
        sampleCancelled.
Proof.
  eexists. eexists.
  split; [vm_compute; reflexivity|].
  split; [reflexivity|].
  split; [vm_compute; reflexivity|].
  split; [vm_compute; discriminate|].
  apply (retryDeployment_creates_run 1700000005000 "1700000000000"
           sampleCancelled _ _ eq_refl eq_refl eq_refl).
  vm_compute; discriminate.
Defined.

(** C8, as stated, fails on the initial page: run "3" is in stage [failed]
    and its repository "3" is connected, but that repository scores 74, so
    retrying the run is rejected by the quality gate and creates nothing. *)
Lemma retryDeployment_blocked_by_gate :
  (exists p repo,
     In p (pipelines (initialState 0)) /\ Pipeline.id p = "3" /\
     Pipeline.stage p = failed /\
     In repo (repositories (initialState 0)) /\
     Repository.id repo = Pipeline.repositoryId p) /\
  pipelines (retryDeployment 1700000000000 "3" (initialState 0))
  = pipelines (initialState 0) /\
  intervals (retryDeployment 1700000000000 "3" (initialState 0))
  = intervals (initialState 0) /\
  effects (retryDeployment 1700000000000 "3" (initialState 0))
  = [Alert "Cannot deploy: Quality score must be ≥85%"].
Proof.
  split; [|repeat split].
  exists (Pipeline.mk "3" "mobile-app" "3" "develop" failed 45%Q
            "1h ago" "2m 15s" false staging),
         (Repository.mk "3" "mobile-app" "mycompany" "develop" "1h ago"
            74%Q reviewing 2%Q "https://github.com/mycompany/mobile-app"
            0 None).
  simpl. tauto.
Qed.

(** ** Cancelling a run *)

(** What [cancelDeployment] does to each run. *)
Lemma cancelDeployment_pipelines (pipelineId : string) (st : AppState) :
  pipelines (cancelDeployment pipelineId st)
  = map (fun p =>
           if (Pipeline.id p === pipelineId)
              && negb (Stage_eqb (Pipeline.stage p) completed)
              && negb (Stage_eqb (Pipeline.stage p) failed)
           then Pipeline.with_failed p else p)
        (pipelines st).
Proof. reflexivity. Qed.

(** Cancelling a run that is neither completed nor failed forces its stage
    to [failed] and keeps its progress; the interval that drives the run is
    left running. *)
Lemma cancelDeployment_forces_failed (pipelineId : string) (st : AppState) :
  (forall p, In p (pipelines st) ->
     Pipeline.id p = pipelineId ->
     Pipeline.stage p <> completed -> Pipeline.stage p <> failed ->
     In (Pipeline.with_failed p) (pipelines (cancelDeployment pipelineId st))) /\
  intervals (cancelDeployment pipelineId st) = intervals st.
Proof.
  split; [|reflexivity].
  intros p Hin Hid Hc Hf. rewrite cancelDeployment_pipelines.
  apply in_map_iff. exists p. split; [|exact Hin].
  rewrite Hid, String.eqb_refl.
  destruct (Pipeline.stage p); simpl; congruence.
Qed.

(** C1.  The code at the failing input, the sample session: the run started
    for repository "1" has ticked once with draw 1/2 (progress 12.5,
    recorded 13, stage [build]) and is cancelled: its stage is [failed] and
    its progress is still 13.  The interval was not cleared, so the next
    tick (draw 1/2) rewrites the cancelled run: stage [test], progress 25. *)
Theorem cancelled_run_keeps_ticking :
  runView "1700000000000" sampleRunning = [(build, 13%Q)] /\
  runView "1700000000000" sampleCancelled = [(failed, 13%Q)] /\
  map Interval.cleared (intervals sampleCancelled) = [false] /\
  runView "1700000000000" (fireInterval 0 (1 # 2) sampleCancelled)
  = [(test, 25%Q)].
Proof. vm_compute. repeat split. Qed.

(** ** The analysis *)

(** Division by a numeral is multiplication by a constant. *)
Ltac qdiv :=
  unfold Qdiv in *;
  repeat match goal with
    | |- context [ Qinv ?c ] =>
        let v := eval compute in (Qinv c) in change (Qinv c) with v
    | H : context [ Qinv ?c ] |- _ =>
        let v := eval compute in (Qinv c) in change (Qinv c) with v in H
    end.

(** The drawn score, [floor(random * 40) + 60], is an integer of [[60, 100)]. *)
Lemma drawScore_range (r : Q) :
  (0 <= r)%Q -> (r < 1)%Q -> 60 <= drawScore r < 100.
Proof.
  intros H0 H1. unfold drawScore.
  assert (H : 0 <= JS.Math_floor (r * 40) < 40).
  { apply floor_range.
    - change (inject_Z 0) with 0%Q. lra.
    - change (inject_Z 40) with 40%Q. lra. }
  lia.
Qed.

(** Each integer [k] is drawn exactly when [random] falls in the interval
    [[(k - 60) / 40, (k - 59) / 40)]: the forty scores of [[60, 100)] have
    preimages of the same length 1/40, so a uniform [random] gives a uniform
    score. *)
Lemma drawScore_uniform (r : Q) (k : Z) :
  drawScore r = k <->
  ((inject_Z k - 60) / 40 <= r /\ r < (inject_Z k - 59) / 40)%Q.
Proof.
  unfold drawScore.
  assert (E : JS.Math_floor (r * 40) + 60 = k <-> JS.Math_floor (r * 40) = k - 60)
    by lia.
  rewrite E, floor_spec. clear E.
  replace (k - 60 + 1) with (k + - (59)) by lia.
  unfold Z.sub. rewrite !inject_Z_plus, !inject_Z_opp.
  change (inject_Z 60) with 60%Q. change (inject_Z 59) with 59%Q.
  qdiv. split; intros [Ha Hb]; split; lra.
Qed.

(** The thresholds of [classify] on an integer score. *)
Lemma classify_spec (score : Z) :
  (classify (inject_Z score) = approved <-> 85 <= score) /\
  (classify (inject_Z score) = reviewing <-> 70 <= score < 85) /\
  (classify (inject_Z score) = rejected <-> score < 70).
Proof.
  unfold classify.
  destruct (JS.ge (inject_Z score) 85) eqn:E85;
    [apply ge_spec in E85 | apply ge_false in E85];
    change 85%Q with (inject_Z 85) in E85;
    rewrite <- ?Zle_Qle, <- ?Zlt_Qlt in E85.
  - repeat split; intros; try discriminate; lia.
  - destruct (JS.ge (inject_Z score) 70) eqn:E70;
      [apply ge_spec in E70 | apply ge_false in E70];
      change 70%Q with (inject_Z 70) in E70;
      rewrite <- ?Zle_Qle, <- ?Zlt_Qlt in E70;
      repeat split; intros; try discriminate; lia.
Qed.

Lemma mapi_from_length {A B : Type} (f : nat -> A -> B) (xs : list A) (i : nat) :
  List.length (JS.mapi_from i f xs) = List.length xs.
Proof.
  revert i. induction xs as [|x xs IH]; intro i; simpl; [reflexivity|].
  now rewrite IH.
Qed.

Lemma mapi_from_nth_error {A B : Type} (f : nat -> A -> B) (xs : list A)
  (i k : nat) :
  nth_error (JS.mapi_from i f xs) k
  = option_map (f (i + k)%nat) (nth_error xs k).
Proof.
  revert i k. induction xs as [|x xs IH]; intros i k; simpl.
  - now destruct k.
  - destruct k as [|k]; simpl.
    + now rewrite Nat.add_0_r.
    + rewrite IH. now rewrite Nat.add_succ_r.
Qed.

Lemma mapi_from_In {A B : Type} (f : nat -> A -> B) (xs : list A) (i : nat)
  (y : B) :
  In y (JS.mapi_from i f xs) <-> exists k x, nth_error xs k = Some x /\ y = f (i + k)%nat x.
Proof.
  split.
  - intro H. apply In_nth_error in H. destruct H as [k Hk].
    rewrite mapi_from_nth_error in Hk.
    destruct (nth_error xs k) as [x|] eqn:E; [|discriminate].
    exists k, x. split; [exact E|]. simpl in Hk. congruence.
  - intros (k & x & Hk & ->).
    apply nth_error_In with k. rewrite mapi_from_nth_error, Hk. reflexivity.
Qed.

Lemma nth_error_snoc {A : Type} (xs : list A) (x : A) :
  nth_error (xs ++ [x]) (List.length xs) = Some x.
Proof.
  rewrite nth_error_app2 by lia. now rewrite Nat.sub_diag.
Qed.

(** A scheduled analysis, when it fires, runs its callback once. *)
Lemma fireTimeout_scheduled (h : nat) (now : Z) (d : Draws) (st : AppState)
  (cb : TimeoutCallback) :
  scheduled st h cb ->
  fireTimeout h now d st
  = match cb with
    | AnalysisCallback newRepoId name =>
        analysisCallback now d newRepoId name (mark_fired h st)
    | ManualReviewCallback repoId => manualReviewCallback d repoId (mark_fired h st)
    | RefreshCallback => refreshCallback d (mark_fired h st)
    end.
Proof.
  intros [ms H]. unfold fireTimeout. rewrite H. reflexivity.
Qed.

Lemma update_nth_nth_error {A : Type} (f : A -> A) (xs : list A) (h : nat) (x : A) :
  nth_error xs h = Some x ->
  nth_error (update_nth h f xs) h = Some (f x).
Proof.
  revert h. induction xs as [|y xs IH]; intros [|h]; simpl; try discriminate.
  - congruence.
  - apply IH.
Qed.

Lemma update_nth_other {A : Type} (f : A -> A) (xs : list A) (h k : nat) :
  h <> k -> nth_error (update_nth h f xs) k = nth_error xs k.
Proof.
  revert h k. induction xs as [|y xs IH]; intros [|h] [|k] Hne; simpl;
    try reflexivity; try congruence.
  apply IH. congruence.
Qed.

(** Once fired, a timeout does nothing more. *)
Lemma fireTimeout_once (h : nat) (now now' : Z) (d d' : Draws) (st : AppState)
  (cb : TimeoutCallback) :
  scheduled st h cb ->
  fireTimeout h now' d' (fireTimeout h now d st) = fireTimeout h now d st.
Proof.
  intros Hs. pose proof Hs as [ms H].
  rewrite (fireTimeout_scheduled h now d st cb Hs).
  assert (Hf : forall s, timeouts s = timeouts (mark_fired h st) ->
                         fireTimeout h now' d' s = s).
  { intros s Hts. unfold fireTimeout. rewrite Hts. simpl.
    rewrite (update_nth_nth_error _ _ _ _ H). reflexivity. }
  destruct cb; apply Hf; reflexivity.
Qed.

(** What an accepted connection leaves behind. *)
Lemma addRepository_accepted (now : Z) (repoUrl : string) (st : AppState) :
  fst (addRepository now repoUrl st) = true ->
  exists owner name,
    urlParts repoUrl = [owner; name] /\
    snd (addRepository now repoUrl st)
    = setTimeout (AnalysisCallback (JS.toString now) name) 3000
        (setRepositories
           (fun prev =>
              prev ++ [Repository.mk (JS.toString now) name owner "main"
                         "just now" 0%Q reviewing 0%Q repoUrl now (Some true)])
           st).
Proof.
  unfold addRepository, addRepository_try.
  destruct (Nat.eqb (List.length (urlParts repoUrl)) 2) eqn:Hlen; simpl;
    [|discriminate].
  apply Nat.eqb_eq, length_two in Hlen. destruct Hlen as (owner & name & Hp).
  rewrite Hp. simpl.
  destruct (existsb _ (repositories st)); simpl; [discriminate|].
  intros _. now exists owner, name.
Qed.

(** The registry after the analysis callback. *)
Lemma analysisCallback_repositories (now : Z) (d : Draws)
  (newRepoId name : string) (st : AppState) (repo' : Repository.t) :
  In repo' (repositories (analysisCallback now d newRepoId name st)) <->
  exists k repo,
    nth_error (repositories st) k = Some repo /\
    repo' = if Repository.id repo === newRepoId
            then Repository.with_analysis repo
                   (inject_Z (drawScore (dScore d)))
                   (classify (inject_Z (drawScore (dScore d))))
                   (inject_Z (JS.Math_floor (dPullRequests d k * 5) + 1))
            else repo.
Proof.
  unfold analysisCallback. simpl. unfold JS.mapi.
  rewrite mapi_from_In. reflexivity.
Qed.

Lemma updateRepositoryStatus_In (repoId : string) (s : RepoStatus)
  (st : AppState) (repo' : Repository.t) :
  In repo' (repositories (updateRepositoryStatus repoId s st)) <->
  exists repo,
    In repo (repositories st) /\
    repo' = if Repository.id repo === repoId
            then Repository.with_status repo s else repo.
Proof.
  unfold updateRepositoryStatus. simpl. rewrite in_map_iff.
  split; intros (repo & H1 & H2); exists repo; split; auto.
Qed.


Lemma mapi_from_app {A B : Type} (f : nat -> A -> B) (xs ys : list A)
  (i : nat) :
  JS.mapi_from i f (xs ++ ys)
  = JS.mapi_from i f xs ++ JS.mapi_from (i + List.length xs) f ys.
Proof.
  revert i. induction xs as [|x xs IH]; intro i; simpl.
  - now rewrite Nat.add_0_r.
  - rewrite IH. now rewrite Nat.add_succ_r.
Qed.

Lemma mapi_from_fixed {A : Type} (f : nat -> A -> A) (xs : list A) (i : nat) :
  (forall k x, In x xs -> f k x = x) -> JS.mapi_from i f xs = xs.
Proof.
  revert i. induction xs as [|x xs IH]; intros i H; simpl; [reflexivity|].
  rewrite H by now left. rewrite IH; [reflexivity|].
  intros k y Hy. apply H. now right.
Qed.


(** ** Ticks *)

Lemma fireInterval_live (h : nat) (random : Q) (st : AppState) (iv : Interval.t) :
  nth_error (intervals st) h = Some iv ->
  Interval.cleared iv = false ->
  fireInterval h random st = intervalCallback h iv random st.
Proof. intros H Hc. unfold fireInterval. now rewrite H, Hc. Qed.

Lemma fireInterval_cleared (h : nat) (random : Q) (st : AppState) (iv : Interval.t) :
  nth_error (intervals st) h = Some iv ->
  Interval.cleared iv = true ->
  fireInterval h random st = st.
Proof. intros H Hc. unfold fireInterval. now rewrite H, Hc. Qed.

(** The two branches of the callback. *)
Lemma intervalCallback_running (h : nat) (iv : Interval.t) (random : Q)
  (st : AppState) :
  (Interval.progress iv + (random * 15 + 5) < 100)%Q ->
  intervalCallback h iv random st
  = let progress := (Interval.progress iv + (random * 15 + 5))%Q in
    let index :=
      JS.Math_floor
        (progress / 100 * inject_Z (Z.of_nat (List.length stages) - 1)) in
    setPipelines (map (tickUpdate (Interval.pipelineId iv) index progress))
      (assign_locals h progress index st).
Proof.
  intro H. unfold intervalCallback.
  apply ge_false in H. rewrite H. reflexivity.
Qed.

Lemma intervalCallback_done (h : nat) (iv : Interval.t) (random : Q)
  (st : AppState) :
  (100 <= Interval.progress iv + (random * 15 + 5))%Q ->
  intervalCallback h iv random st
  = setPipelines (map (tickUpdate (Interval.pipelineId iv) 4 100%Q))
      (assign_locals h 100%Q 4
         (clearInterval h
            (updateRepositoryStatus (Interval.repoId iv) deployed st))).
Proof.
  intro H. unfold intervalCallback.
  apply ge_spec in H. rewrite H. reflexivity.
Qed.

(** While the accumulated progress is below 100 the computed index is one
    of 0, 1, 2, 3: [stages[index]] is defined and is not ['completed']. *)
Lemma tick_index_in_range (progress : Q) :
  (0 <= progress)%Q -> (progress < 100)%Q ->
  0 <= JS.Math_floor
         (progress / 100 * inject_Z (Z.of_nat (List.length stages) - 1)) < 4.
Proof.
  intros H0 H1. apply floor_range.
  - change (inject_Z (Z.of_nat (List.length stages) - 1)) with 4%Q.
    change (inject_Z 0) with 0%Q. qdiv. lra.
  - change (inject_Z (Z.of_nat (List.length stages) - 1)) with 4%Q.
    change (inject_Z 4) with 4%Q. qdiv. lra.
Qed.

Lemma stages_at_below (index : Z) :
  0 <= index < 4 ->
  exists s, stages_at index = Some s /\
            nth_error [build; test; security; deploy] (Z.to_nat index) = Some s.
Proof.
  intro H.
  assert (E : index = 0 \/ index = 1 \/ index = 2 \/ index = 3) by lia.
  destruct E as [-> | [-> | [-> | ->]]]; eexists; split; reflexivity.
Qed.

(** The increment is an affine image of the draw: it falls in [[a, b)]
    exactly when the draw falls in [[(a - 5) / 15, (b - 5) / 15)], an
    interval 15 times shorter. *)
Lemma increment_uniform (random a b : Q) :
  (a <= random * 15 + 5 /\ random * 15 + 5 < b)%Q <->
  ((a - 5) / 15 <= random /\ random < (b - 5) / 15)%Q.
Proof. qdiv. split; intros [H1 H2]; split; lra. Qed.

Lemma tickUpdate_In (pipelineId : string) (index : Z) (progress : Q)
  (ps : list Pipeline.t) (p' : Pipeline.t) :
  In p' (map (tickUpdate pipelineId index progress) ps) ->
  Pipeline.id p' = pipelineId ->
  exists p, In p ps /\ Pipeline.id p = pipelineId /\
    p' = Pipeline.with_tick p
           (match stages_at index with Some s => s | None => Pipeline.stage p end)
           (inject_Z (JS.Math_round progress)) (durationLabel progress).
Proof.
  intros Hin Hid. apply in_map_iff in Hin. destruct Hin as (p & <- & Hp).
  unfold tickUpdate in *.
  destruct (Pipeline.id p === pipelineId) eqn:E.
  - exists p. apply String.eqb_eq in E. auto.
  - apply String.eqb_neq in E. contradiction.
Qed.


(** ** How each event changes runs and intervals *)

(** Registry and review events leave runs and intervals alone. *)
Lemma step_frame (st : AppState) (e : Event) :
  match e with
  | ETriggerDeployment _ _ _ | ETick _ _
  | ECancelDeployment _ | ERetryDeployment _ _ => True
  | _ => pipelines (step st e) = pipelines st /\
         intervals (step st e) = intervals st
  end.
Proof.
  destruct e as [now repoUrl|repoId| |repoId|h now d| | | | ]; simpl;
    try exact I; try (split; reflexivity).
  - unfold addRepository.
    destruct (addRepository_try now repoUrl st) as [msg|st'] eqn:E; simpl;
      [split; reflexivity|].
    unfold addRepository_try in E.
    destruct (negb _); [discriminate|].
    destruct (existsb _ _); [discriminate|].
    injection E as <-. split; reflexivity.
  - unfold fireTimeout.
    destruct (nth_error (timeouts st) h) as [t|]; [|split; reflexivity].
    destruct (Timeout.fired t); [split; reflexivity|].
    destruct (Timeout.callback t); split; reflexivity.
Qed.

(** A trigger either is rejected or starts one run and its interval. *)
Lemma triggerDeployment_shape (now : Z) (repo : Repository.t)
  (environment : Environment) (st : AppState) :
  let st' := triggerDeployment now repo environment st in
  (pipelines st' = pipelines st /\ intervals st' = intervals st) \/
  (exists run,
     Pipeline.id run = JS.toString now /\
     Pipeline.progress run = 0%Q /\
     pipelines st' = run :: pipelines st /\
     intervals st'
     = intervals st
       ++ [Interval.mk (JS.toString now) (Repository.id repo) 0%Q 0 false]).
Proof.
  unfold triggerDeployment.
  destruct (JS.lt (Repository.qualityScore repo) 85).
  - left. split; reflexivity.
  - right.
    exists (Pipeline.mk (JS.toString now) (Repository.name repo)
              (Repository.id repo) (Repository.branch repo)
              build 0%Q "just now" "0s" true environment).
    repeat split.
Qed.

Lemma retryDeployment_shape (now : Z) (pipelineId : string) (st : AppState) :
  let st' := retryDeployment now pipelineId st in
  (pipelines st' = pipelines st /\ intervals st' = intervals st) \/
  (exists run repoId,
     Pipeline.id run = JS.toString now /\
     Pipeline.progress run = 0%Q /\
     pipelines st' = run :: pipelines st /\
     intervals st'
     = intervals st ++ [Interval.mk (JS.toString now) repoId 0%Q 0 false]).
Proof.
  unfold retryDeployment.
  destruct (find _ (pipelines st)) as [p|]; [|left; split; reflexivity].
  destruct (find _ (repositories st)) as [repo|]; [|left; split; reflexivity].
  destruct (triggerDeployment_shape now repo (Pipeline.environment p) st)
    as [H | (run & H)].
  - left. exact H.
  - right. exists run, (Repository.id repo). exact H.
Qed.

Lemma map_update_nth {A B : Type} (g : A -> B) (f : A -> A) (xs : list A)
  (h : nat) :
  (forall x, g (f x) = g x) -> map g (update_nth h f xs) = map g xs.
Proof.
  intro Hg. revert h. induction xs as [|x xs IH]; intros [|h]; simpl;
    try reflexivity.
  - now rewrite Hg.
  - now rewrite IH.
Qed.

Lemma nextProgress_range (progress random : Q) :
  (0 <= progress)%Q -> (0 <= random)%Q ->
  (progress <= nextProgress progress random)%Q
  \/ (100 < progress)%Q.
Proof.
  intros Hp Hr. unfold nextProgress.
  destruct (JS.ge (progress + (random * 15 + 5)) 100) eqn:E.
  - destruct (Qlt_le_dec 100 progress); [now right | now left].
  - left. lra.
Qed.

Lemma nextProgress_bounds (progress random : Q) :
  (0 <= progress)%Q -> (0 <= random)%Q ->
  (0 <= nextProgress progress random)%Q /\
  (nextProgress progress random <= 100)%Q.
Proof.
  intros Hp Hr. unfold nextProgress.
  destruct (JS.ge (progress + (random * 15 + 5)) 100) eqn:E.
  - split; lra.
  - apply ge_false in E. split; lra.
Qed.

(** A tick either finds no live interval and changes nothing, or rewrites
    the runs named by the interval and the locals of the interval. *)
Lemma fireInterval_shape (h : nat) (random : Q) (st : AppState) :
  let st' := fireInterval h random st in
  st' = st \/
  exists iv index c,
    nth_error (intervals st) h = Some iv /\
    Interval.cleared iv = false /\
    pipelines st'
    = map (tickUpdate (Interval.pipelineId iv) index
             (nextProgress (Interval.progress iv) random))
          (pipelines st) /\
    nth_error (intervals st') h
    = Some (Interval.mk (Interval.pipelineId iv) (Interval.repoId iv)
              (nextProgress (Interval.progress iv) random) index c) /\
    (forall k, k <> h ->
       nth_error (intervals st') k = nth_error (intervals st) k) /\
    map Interval.pipelineId (intervals st')
    = map Interval.pipelineId (intervals st).
Proof.
  unfold fireInterval.
  destruct (nth_error (intervals st) h) as [iv|] eqn:Hiv; [|now left].
  destruct (Interval.cleared iv) eqn:Hc; [now left|].
  right. unfold intervalCallback, nextProgress.
  destruct (JS.ge (Interval.progress iv + (random * 15 + 5)) 100) eqn:E.
  - exists iv, (Z.of_nat (List.length stages) - 1), true. rewrite E.
    split; [reflexivity|]. split; [exact Hc|]. simpl.
    split; [reflexivity|]. split; [|split].
    + erewrite update_nth_nth_error;
        [|apply update_nth_nth_error; exact Hiv]. reflexivity.
    + intros k Hk. rewrite !update_nth_other by congruence. reflexivity.
    + rewrite !map_update_nth by reflexivity. reflexivity.
  - eexists iv, _, false. rewrite E.
    split; [reflexivity|]. split; [exact Hc|]. simpl.
    split; [reflexivity|]. split; [|split].
    + rewrite (update_nth_nth_error _ _ _ _ Hiv). rewrite Hc. reflexivity.
    + intros k Hk. rewrite update_nth_other by congruence. reflexivity.
    + rewrite map_update_nth by reflexivity. reflexivity.
Qed.

Lemma tickUpdate_id (pipelineId : string) (index : Z) (progress : Q)
  (p : Pipeline.t) :
  Pipeline.id (tickUpdate pipelineId index progress p) = Pipeline.id p.
Proof.
  unfold tickUpdate. destruct (Pipeline.id p === pipelineId); reflexivity.
Qed.

Lemma tickUpdate_progress (pipelineId : string) (index : Z) (progress : Q)
  (p : Pipeline.t) :
  Pipeline.progress (tickUpdate pipelineId index progress p)
  = if Pipeline.id p === pipelineId
    then inject_Z (JS.Math_round progress)
    else Pipeline.progress p.
Proof.
  unfold tickUpdate. destruct (Pipeline.id p === pipelineId); reflexivity.
Qed.

(** [cancelDeployment] keeps the id and the progress of every run. *)
Lemma cancelDeployment_shape (pipelineId : string) (st : AppState) :
  exists g,
    (forall p, Pipeline.id (g p) = Pipeline.id p) /\
    (forall p, Pipeline.progress (g p) = Pipeline.progress p) /\
    pipelines (cancelDeployment pipelineId st) = map g (pipelines st) /\
    intervals (cancelDeployment pipelineId st) = intervals st.
Proof.
  eexists. split; [|split; [|split; [apply cancelDeployment_pipelines
                                    | reflexivity]]];
    intro p; simpl;
    destruct ((Pipeline.id p === pipelineId)
              && negb (Stage_eqb (Pipeline.stage p) completed)
              && negb (Stage_eqb (Pipeline.stage p) failed)); reflexivity.
Qed.

(** The four ways an event can act on runs and intervals: not at all, by
    starting a run, by cancelling, by ticking. *)
Lemma step_cases (st : AppState) (e : Event) :
  let st' := step st e in
  (pipelines st' = pipelines st /\ intervals st' = intervals st)
  \/ (exists now run repoId,
        clock_fresh st e = unused_id now st /\
        Pipeline.id run = JS.toString now /\
        Pipeline.progress run = 0%Q /\
        pipelines st' = run :: pipelines st /\
        intervals st'
        = intervals st ++ [Interval.mk (JS.toString now) repoId 0%Q 0 false])
  \/ (exists g,
        (forall p, Pipeline.id (g p) = Pipeline.id p) /\
        (forall p, Pipeline.progress (g p) = Pipeline.progress p) /\
        pipelines st' = map g (pipelines st) /\
        intervals st' = intervals st)
  \/ (exists h random iv index c,
        draws_ok e = unit_draw random /\
        nth_error (intervals st) h = Some iv /\
        Interval.cleared iv = false /\
        pipelines st'
        = map (tickUpdate (Interval.pipelineId iv) index
                 (nextProgress (Interval.progress iv) random))
              (pipelines st) /\
        nth_error (intervals st') h
        = Some (Interval.mk (Interval.pipelineId iv) (Interval.repoId iv)
                  (nextProgress (Interval.progress iv) random) index c) /\
        (forall k, k <> h ->
           nth_error (intervals st') k = nth_error (intervals st) k) /\
        map Interval.pipelineId (intervals st')
        = map Interval.pipelineId (intervals st)).
Proof.
  pose proof (step_frame st e) as Hframe.
  destruct e as [now repoUrl|repoId| |repoId|h now d
                |now repo environment|h random|pipelineId|now pipelineId];
    try (left; exact Hframe); clear Hframe; simpl.
  - destruct (triggerDeployment_shape now repo environment st)
      as [H | (run & H)].
    + left. exact H.
    + right. left. exists now, run, (Repository.id repo).
      split; [reflexivity | exact H].
  - destruct (fireInterval_shape h random st)
      as [H | (iv & index & c & H)].
    + left. simpl in H. rewrite H. split; reflexivity.
    + right. right. right. exists h, random, iv, index, c.
      split; [reflexivity | exact H].
  - right. right. left. apply cancelDeployment_shape.
  - destruct (retryDeployment_shape now pipelineId st)
      as [H | (run & repoId & H)].
    + left. exact H.
    + right. left. exists now, run, repoId.
      split; [reflexivity | exact H].
Qed.

(** ** The recorded progress stays an integer of [[0, 100]] *)

Lemma progress_ok_initial (t0 : Z) : progress_ok (initialState t0).
Proof.
  split; [|constructor].
  repeat constructor.
  - exists 100. split; [reflexivity | lia].
  - exists 75. split; [reflexivity | lia].
  - exists 45. split; [reflexivity | lia].
Qed.

Lemma In_ticked_interval (st st' : AppState) (h : nat) (new : Interval.t)
  (iv' : Interval.t) :
  nth_error (intervals st') h = Some new ->
  (forall k, k <> h -> nth_error (intervals st') k = nth_error (intervals st) k) ->
  In iv' (intervals st') ->
  iv' = new \/
  exists k, k <> h /\ nth_error (intervals st) k = Some iv'.
Proof.
  intros Hh Hother Hin. apply In_nth_error in Hin. destruct Hin as [k Hk].
  destruct (Nat.eq_dec k h) as [->|Hne].
  - left. congruence.
  - right. exists k. split; [exact Hne|]. now rewrite <- Hother.
Qed.

Lemma progress_ok_step (st : AppState) (e : Event) :
  progress_ok st -> draws_ok e = true -> progress_ok (step st e).
Proof.
  intros [Hp Hi] Hdraw.
  destruct (step_cases st e)
    as [[Ep Ei] | [(now & run & repoId & _ & _ & Hrun & Ep & Ei)
       | [(g & _ & Hg & Ep & Ei)
       | (h & random & iv & index & c & Ed & Hiv & _ & Ep & Eh & Eo & _)]]];
    unfold progress_ok.
  - rewrite Ep, Ei. split; assumption.
  - rewrite Ep, Ei. split.
    + constructor; [|exact Hp]. exists 0. split; [exact Hrun | lia].
    + apply Forall_app. split; [exact Hi|].
      constructor; [|constructor]. split; simpl; lra.
  - rewrite Ep, Ei. split; [|exact Hi].
    apply Forall_map. eapply Forall_impl; [|exact Hp].
    intros p (n & Hn & Hr). exists n. now rewrite Hg.
  - rewrite Ed in Hdraw. apply unit_draw_spec in Hdraw.
    destruct Hdraw as [Hr0 Hr1].
    assert (Hacc : accumulator_in_range iv).
    { rewrite Forall_forall in Hi. apply Hi.
      eapply nth_error_In. exact Hiv. }
    destruct Hacc as [Ha0 Ha1].
    pose proof (nextProgress_bounds (Interval.progress iv) random Ha0 Hr0)
      as [Hn0 Hn1].
    split.
    + rewrite Ep. apply Forall_map. eapply Forall_impl; [|exact Hp].
      intros p (n & Hn & Hr). unfold progress_in_range.
      rewrite tickUpdate_progress.
      destruct (Pipeline.id p === Interval.pipelineId iv).
      * eexists. split; [reflexivity|]. now apply round_range.
      * exists n. split; assumption.
    + apply Forall_forall. intros iv' Hin.
      destruct (In_ticked_interval st _ h _ iv' Eh Eo Hin)
        as [-> | (k & _ & Hk)].
      * split; simpl; assumption.
      * rewrite Forall_forall in Hi. apply Hi.
        eapply nth_error_In. exact Hk.
Qed.

Lemma progress_ok_exec (es : list Event) (st : AppState) :
  progress_ok st -> draws_ok_trace es = true -> progress_ok (exec st es).
Proof.
  revert st. induction es as [|e es IH]; intros st Hok Hd; simpl.
  - exact Hok.
  - unfold draws_ok_trace in Hd. simpl in Hd.
    apply andb_true_iff in Hd. destruct Hd as [He Hes].
    apply IH; [|exact Hes]. now apply progress_ok_step.
Qed.

Lemma fireInterval_live_pipelines (h : nat) (random : Q) (st : AppState)
  (iv : Interval.t) :
  nth_error (intervals st) h = Some iv ->
  Interval.cleared iv = false ->
  exists index,
    pipelines (fireInterval h random st)
    = map (tickUpdate (Interval.pipelineId iv) index
             (nextProgress (Interval.progress iv) random))
          (pipelines st).
Proof.
  intros Hiv Hc. rewrite (fireInterval_live h random st iv Hiv Hc).
  unfold intervalCallback, nextProgress.
  destruct (JS.ge (Interval.progress iv + (random * 15 + 5)) 100);
    eexists; reflexivity.
Qed.

(** C10.  In every state reached from the initial page by events whose
    ticks draw in [[0, 1)], the recorded progress of every run is an integer
    of the closed range [[0, 100]].  It is 0 when the run is created; a tick
    of the interval of the run writes the accumulated progress plus the
    increment, capped at 100 and rounded to an integer; cancelling leaves
    the progress of every run unchanged. *)
Theorem progress_in_bounds :
  forall (t0 : Z) (es : list Event),
    draws_ok_trace es = true ->
    (forall p, In p (pipelines (exec (initialState t0) es)) ->
       exists n : Z, Pipeline.progress p = inject_Z n /\ 0 <= n <= 100) /\
    (forall (now : Z) (repo : Repository.t) (environment : Environment)
            (st : AppState),
       (85 <= Repository.qualityScore repo)%Q ->
       exists run,
         pipelines (triggerDeployment now repo environment st)
         = run :: pipelines st /\
         Pipeline.progress run = 0%Q) /\
    (forall (st : AppState) (h : nat) (random : Q) (iv : Interval.t),
       nth_error (intervals st) h = Some iv ->
       Interval.cleared iv = false ->
       (nextProgress (Interval.progress iv) random <= 100)%Q /\
       forall p', In p' (pipelines (fireInterval h random st)) ->
         Pipeline.id p' = Interval.pipelineId iv ->
         Pipeline.progress p'
         = inject_Z (JS.Math_round
                       (nextProgress (Interval.progress iv) random))) /\
    (forall (pipelineId : string) (st : AppState),
       map Pipeline.progress (pipelines (cancelDeployment pipelineId st))
       = map Pipeline.progress (pipelines st)).
Proof.
  intros t0 es Hd. split; [|split; [|split]].
  - intros p Hin.
    destruct (progress_ok_exec es (initialState t0)
                (progress_ok_initial t0) Hd) as [Hp _].
    rewrite Forall_forall in Hp. exact (Hp p Hin).
  - intros now repo environment st Hscore.
    rewrite (triggerDeployment_accepted _ _ _ _ Hscore).
    eexists. split; reflexivity.
  - intros st h random iv Hiv Hc. split.
    + unfold nextProgress.
      destruct (JS.ge (Interval.progress iv + (random * 15 + 5)) 100) eqn:E.
      * lra.
      * apply ge_false in E. lra.
    + intros p' Hin Hid.
      destruct (fireInterval_live_pipelines h random st iv Hiv Hc)
        as [index Ep].
      rewrite Ep in Hin. apply in_map_iff in Hin.
      destruct Hin as (p & <- & _).
      rewrite tickUpdate_id in Hid. rewrite tickUpdate_progress.
      apply String.eqb_eq in Hid. now rewrite Hid.
  - intros pipelineId st.
    destruct (cancelDeployment_shape pipelineId st) as (g & _ & Hg & -> & _).
    rewrite map_map. apply map_ext. exact Hg.
Qed.

(** ** The recorded progress never decreases *)

Lemma NoDup_snoc {A : Type} (xs : list A) (x : A) :
  NoDup xs -> ~ In x xs -> NoDup (xs ++ [x]).
Proof.
  induction xs as [|y xs IH]; intros Hnd Hnin; simpl.
  - constructor; [intros [] | constructor].
  - inversion Hnd as [|? ? Hy Hxs]; subst. constructor.
    + rewrite in_app_iff. intros [H | [H | []]].
      * contradiction.
      * subst. apply Hnin. now left.
    + apply IH; [exact Hxs|]. intro H. apply Hnin. now right.
Qed.

Lemma NoDup_map_index {A B : Type} (g : A -> B) (xs : list A) (i j : nat)
  (a b : A) :
  NoDup (map g xs) ->
  nth_error xs i = Some a -> nth_error xs j = Some b -> g a = g b -> i = j.
Proof.
  intros Hnd Hi Hj Hg.
  rewrite NoDup_nth_error in Hnd. apply Hnd.
  - rewrite length_map. apply nth_error_Some. congruence.
  - rewrite !nth_error_map, Hi, Hj. simpl. now rewrite Hg.
Qed.

Lemma NoDup_map_In {A B : Type} (g : A -> B) (xs : list A) (a b : A) :
  NoDup (map g xs) -> In a xs -> In b xs -> g a = g b -> a = b.
Proof.
  intros Hnd Ha Hb Hg.
  apply In_nth_error in Ha. destruct Ha as [i Hi].
  apply In_nth_error in Hb. destruct Hb as [j Hj].
  assert (i = j) by (eapply NoDup_map_index; eassumption).
  subst j. congruence.
Qed.

Lemma timers_consistent_initial (t0 : Z) : timers_consistent (initialState t0).
Proof.
  split; [|split; [|split]]; simpl.
  - repeat constructor; simpl; intuition discriminate.
  - constructor.
  - intros iv [].
  - intros iv p [].
Qed.

Lemma map_id_preserved (g : Pipeline.t -> Pipeline.t) (ps : list Pipeline.t) :
  (forall p, Pipeline.id (g p) = Pipeline.id p) ->
  map Pipeline.id (map g ps) = map Pipeline.id ps.
Proof. intro Hg. rewrite map_map. apply map_ext. exact Hg. Qed.

Lemma timers_consistent_step (st : AppState) (e : Event) :
  timers_consistent st -> clock_fresh st e = true ->
  timers_consistent (step st e).
Proof.
  intros (Hids & Hpids & Hsub & Htr) Hfresh.
  destruct (step_cases st e)
    as [[Ep Ei] | [(now & run & repoId & Ef & Hid & Hrun & Ep & Ei)
       | [(g & Hgid & Hg & Ep & Ei)
       | (h & random & iv & index & c & _ & Hiv & _ & Ep & Eh & Eo & Em)]]];
    unfold timers_consistent.
  - rewrite Ep, Ei. repeat split; assumption.
  - rewrite Ef in Hfresh.
    pose proof (proj1 (unused_id_spec now st) Hfresh) as Hnew.
    assert (Hnin : ~ In (JS.toString now) (map Pipeline.id (pipelines st))).
    { intro H. apply in_map_iff in H. destruct H as (p & Hp & Hin).
      exact (Hnew p Hin Hp). }
    rewrite Ep, Ei. split; [|split; [|split]].
    + simpl. rewrite Hid. constructor; assumption.
    + rewrite map_app. simpl. apply NoDup_snoc; [exact Hpids|].
      intro H. apply in_map_iff in H. destruct H as (iv & Hp & Hin).
      apply Hnin. rewrite <- Hp. now apply Hsub.
    + intros iv Hin. apply in_app_iff in Hin. simpl.
      destruct Hin as [Hin | [<- | []]].
      * right. now apply Hsub.
      * left. exact Hid.
    + intros iv p Hiv Hp Heq. apply in_app_iff in Hiv.
      destruct Hiv as [Hiv | [<- | []]]; destruct Hp as [<- | Hp].
      * exfalso. apply Hnin. rewrite <- Hid, Heq. now apply Hsub.
      * now apply Htr.
      * rewrite Hrun. reflexivity.
      * exfalso. exact (Hnew p Hp Heq).
  - rewrite Ep, Ei, (map_id_preserved g _ Hgid).
    split; [exact Hids|]. split; [exact Hpids|]. split; [exact Hsub|].
    intros iv p' Hiv Hp'. apply in_map_iff in Hp'.
    destruct Hp' as (p & <- & Hp). unfold tracks. rewrite Hgid, Hg.
    now apply Htr.
  - rewrite Ep, Em, (map_id_preserved _ _ (tickUpdate_id _ _ _)).
    split; [exact Hids|]. split; [exact Hpids|]. split.
    + intros iv' Hin.
      assert (H : In (Interval.pipelineId iv')
                     (map Interval.pipelineId (intervals st))).
      { rewrite <- Em. now apply in_map. }
      apply in_map_iff in H. destruct H as (iv0 & <- & Hin0). now apply Hsub.
    + intros iv' p' Hin Hp'. apply in_map_iff in Hp'.
      destruct Hp' as (p & <- & Hp). unfold tracks.
      rewrite tickUpdate_id, tickUpdate_progress.
      destruct (In_ticked_interval st _ h _ iv' Eh Eo Hin)
        as [-> | (k & Hk & Hnth)]; simpl; intro Heq.
      * apply String.eqb_eq in Heq. now rewrite Heq.
      * destruct (Pipeline.id p === Interval.pipelineId iv) eqn:E.
        -- apply String.eqb_eq in E. exfalso. apply Hk.
           eapply (NoDup_map_index Interval.pipelineId); try eassumption.
           congruence.
        -- apply Htr; [eapply nth_error_In; exact Hnth | exact Hp | exact Heq].
Qed.

(** Every run stays in the list, under its id. *)
Lemma step_retains (st : AppState) (e : Event) (p : Pipeline.t) :
  In p (pipelines st) ->
  exists p', In p' (pipelines (step st e)) /\ Pipeline.id p' = Pipeline.id p.
Proof.
  intro Hin.
  destruct (step_cases st e)
    as [[Ep _] | [(now & run & repoId & _ & _ & _ & Ep & _)
       | [(g & Hgid & _ & Ep & _)
       | (h & random & iv & index & c & _ & _ & _ & Ep & _)]]];
    rewrite Ep.
  - now exists p.
  - exists p. split; [now right | reflexivity].
  - exists (g p). split; [now apply in_map | apply Hgid].
  - eexists. split; [apply in_map; exact Hin | apply tickUpdate_id].
Qed.

Lemma step_monotone (st : AppState) (e : Event) (p p' : Pipeline.t) :
  timers_consistent st -> progress_ok st ->
  draws_ok e = true -> clock_fresh st e = true ->
  In p (pipelines st) -> In p' (pipelines (step st e)) ->
  Pipeline.id p' = Pipeline.id p ->
  (Pipeline.progress p <= Pipeline.progress p')%Q.
Proof.
  intros (Hids & Hpids & Hsub & Htr) [_ Hacc] Hdraw Hfresh Hp Hp' Heq.
  destruct (step_cases st e)
    as [[Ep _] | [(now & run & repoId & Ef & Hid & _ & Ep & _)
       | [(g & Hgid & Hg & Ep & _)
       | (h & random & iv & index & c & Ed & Hiv & _ & Ep & _)]]];
    rewrite Ep in Hp'.
  - rewrite (NoDup_map_In Pipeline.id _ p' p Hids Hp' Hp Heq).
    apply Qle_refl.
  - rewrite Ef in Hfresh.
    pose proof (proj1 (unused_id_spec now st) Hfresh) as Hnew.
    destruct Hp' as [<- | Hp'].
    + exfalso. apply (Hnew p Hp). congruence.
    + rewrite (NoDup_map_In Pipeline.id _ p' p Hids Hp' Hp Heq).
      apply Qle_refl.
  - apply in_map_iff in Hp'. destruct Hp' as (p0 & <- & Hp0).
    rewrite Hgid in Heq.
    rewrite (NoDup_map_In Pipeline.id _ p0 p Hids Hp0 Hp Heq), Hg.
    apply Qle_refl.
  - apply in_map_iff in Hp'. destruct Hp' as (p0 & <- & Hp0).
    rewrite tickUpdate_id in Heq.
    rewrite (NoDup_map_In Pipeline.id _ p0 p Hids Hp0 Hp Heq).
    rewrite tickUpdate_progress.
    destruct (Pipeline.id p === Interval.pipelineId iv) eqn:E;
      [|apply Qle_refl].
    apply String.eqb_eq in E.
    assert (Hin : In iv (intervals st)) by (eapply nth_error_In; exact Hiv).
    rewrite (Htr iv p Hin Hp E).
    rewrite <- Zle_Qle. apply round_mono.
    rewrite Ed in Hdraw. apply unit_draw_spec in Hdraw.
    rewrite Forall_forall in Hacc. destruct (Hacc iv Hin) as [Ha0 Ha1].
    destruct (nextProgress_range (Interval.progress iv) random Ha0
                (proj1 Hdraw)) as [H | H]; [exact H | lra].
Qed.

Lemma wf_trace_draws_ok (es : list Event) (st : AppState) :
  wf_trace st es = true -> draws_ok_trace es = true.
Proof.
  revert st. induction es as [|e es IH]; intros st H; [reflexivity|].
  simpl in H. apply andb_true_iff in H. destruct H as [H Hes].
  apply andb_true_iff in H. destruct H as [Hd _].
  unfold draws_ok_trace. simpl. rewrite Hd. exact (IH _ Hes).
Qed.

Lemma wf_trace_app (es1 es2 : list Event) (st : AppState) :
  wf_trace st (es1 ++ es2) = true <->
  wf_trace st es1 = true /\ wf_trace (exec st es1) es2 = true.
Proof.
  revert st. induction es1 as [|e es1 IH]; intro st; simpl.
  - tauto.
  - rewrite !andb_true_iff, IH. tauto.
Qed.

Lemma timers_consistent_exec (es : list Event) (st : AppState) :
  timers_consistent st -> wf_trace st es = true ->
  timers_consistent (exec st es).
Proof.
  revert st. induction es as [|e es IH]; intros st Hc H; simpl.
  - exact Hc.
  - simpl in H. apply andb_true_iff in H. destruct H as [H Hes].
    apply andb_true_iff in H. destruct H as [_ Hf].
    apply IH; [|exact Hes]. now apply timers_consistent_step.
Qed.

Lemma exec_retains (es : list Event) (st : AppState) (p : Pipeline.t) :
  In p (pipelines st) ->
  exists p', In p' (pipelines (exec st es)) /\ Pipeline.id p' = Pipeline.id p.
Proof.
  revert st p. induction es as [|e es IH]; intros st p Hin; simpl.
  - now exists p.
  - destruct (step_retains st e p Hin) as (p1 & Hin1 & Hid1).
    destruct (IH _ p1 Hin1) as (p' & Hin' & Hid').
    exists p'. split; [exact Hin' | congruence].
Qed.

Lemma exec_monotone (es : list Event) (st : AppState) (p p' : Pipeline.t) :
  timers_consistent st -> progress_ok st -> wf_trace st es = true ->
  In p (pipelines st) -> In p' (pipelines (exec st es)) ->
  Pipeline.id p' = Pipeline.id p ->
  (Pipeline.progress p <= Pipeline.progress p')%Q.
Proof.
  revert st p. induction es as [|e es IH]; intros st p Hc Hok H Hp Hp' Heq;
    simpl in *.
  - destruct Hc as (Hids & _).
    rewrite (NoDup_map_In Pipeline.id _ p' p Hids Hp' Hp Heq). apply Qle_refl.
  - apply andb_true_iff in H. destruct H as [H Hes].
    apply andb_true_iff in H. destruct H as [Hd Hf].
    destruct (step_retains st e p Hp) as (p1 & Hp1 & Hid1).
    apply Qle_trans with (Pipeline.progress p1).
    + exact (step_monotone st e p p1 Hc Hok Hd Hf Hp Hp1 Hid1).
    + apply (IH (step st e) p1).
      * now apply timers_consistent_step.
      * now apply progress_ok_step.
      * exact Hes.
      * exact Hp1.
      * exact Hp'.
      * congruence.
Qed.

(** C9 (amended).  Take any sequence of events from the initial page in
    which ticks draw in [[0, 1)] and the clock reading that names a new run
    is not already the id of a run.  Runs have distinct ids at every point;
    a run present at some point is still present, under its id, after any further
    events (trigger, tick, cancel, retry or any other); and its recorded
    progress then is at least its recorded progress before: whatever its
    stage, so in particular while it is not in stage [failed]. *)
Theorem progress_monotone :
  forall (t0 : Z) (before after : list Event),
    wf_trace (initialState t0) (before ++ after) = true ->
    let st := exec (initialState t0) before in
    let st' := exec (initialState t0) (before ++ after) in
    NoDup (map Pipeline.id (pipelines st)) /\
    (forall p, In p (pipelines st) ->
       exists p', In p' (pipelines st') /\ Pipeline.id p' = Pipeline.id p) /\
    (forall p p',
       In p (pipelines st) -> In p' (pipelines st') ->
       Pipeline.id p' = Pipeline.id p ->
       Pipeline.stage p' <> failed ->
       (Pipeline.progress p <= Pipeline.progress p')%Q) /\
    (forall p p',
       In p (pipelines st) -> In p' (pipelines st') ->
       Pipeline.id p' = Pipeline.id p ->
       (Pipeline.progress p <= Pipeline.progress p')%Q).
Proof.
  intros t0 before after Hwf st st'.
  apply wf_trace_app in Hwf. destruct Hwf as [Hb Ha].
  assert (Hc : timers_consistent st).
  { apply timers_consistent_exec; [apply timers_consistent_initial | exact Hb]. }
  assert (Hok : progress_ok st).
  { apply progress_ok_exec; [apply progress_ok_initial|].
    eapply wf_trace_draws_ok. exact Hb. }
  assert (E : st' = exec st after).
  { subst st st'. unfold exec. apply fold_left_app. }
  assert (Hmono : forall p p',
             In p (pipelines st) -> In p' (pipelines st') ->
             Pipeline.id p' = Pipeline.id p ->
             (Pipeline.progress p <= Pipeline.progress p')%Q).
  { intros p p' Hp Hp' Heq. rewrite E in Hp'.
    exact (exec_monotone after st p p' Hc Hok Ha Hp Hp' Heq). }
  split; [exact (proj1 Hc)|]. split; [|split].
  - intros p Hp. rewrite E. now apply exec_retains.
  - intros p p' Hp Hp' Heq _. now apply Hmono.
  - exact Hmono.
Qed.

(** ** Completion *)

(** The interval after a tick. *)
Lemma fireInterval_interval (h : nat) (random : Q) (st : AppState)
  (iv : Interval.t) :
  nth_error (intervals st) h = Some iv ->
  Interval.cleared iv = false ->
  nth_error (intervals (fireInterval h random st)) h
  = Some (if JS.ge (Interval.progress iv + (random * 15 + 5)) 100
          then Interval.mk (Interval.pipelineId iv) (Interval.repoId iv)
                 100%Q 4 true
          else Interval.mk (Interval.pipelineId iv) (Interval.repoId iv)
                 (Interval.progress iv + (random * 15 + 5))%Q
                 (JS.Math_floor
                    ((Interval.progress iv + (random * 15 + 5)) / 100
                     * inject_Z (Z.of_nat (List.length stages) - 1)))
                 false).
Proof.
  intros Hiv Hc. rewrite (fireInterval_live h random st iv Hiv Hc).
  unfold intervalCallback.
  destruct (JS.ge (Interval.progress iv + (random * 15 + 5)) 100) eqn:E; simpl.
  - erewrite update_nth_nth_error;
      [|apply update_nth_nth_error; exact Hiv]. reflexivity.
  - rewrite (update_nth_nth_error _ _ _ _ Hiv). rewrite Hc. reflexivity.
Qed.

Lemma ticks_cleared (h : nat) (draws : list Q) (st : AppState)
  (iv : Interval.t) :
  nth_error (intervals st) h = Some iv ->
  Interval.cleared iv = true ->
  ticks h draws st = st.
Proof.
  intros Hiv Hc. induction draws as [|r rs IH]; [reflexivity|].
  unfold ticks in *. simpl.
  rewrite (fireInterval_cleared h r st iv Hiv Hc). exact IH.
Qed.

(** Each tick of a live interval adds at least 5: after [n] ticks the
    interval is cleared or has accumulated at least [5 * n] more, still
    below 100. *)
Lemma ticks_accumulate (h : nat) (draws : list Q) :
  Forall (fun r => unit_draw r = true) draws ->
  forall (st : AppState) (iv : Interval.t),
    nth_error (intervals st) h = Some iv ->
    Interval.cleared iv = false ->
    (Interval.progress iv < 100)%Q ->
    exists iv',
      nth_error (intervals (ticks h draws st)) h = Some iv' /\
      (Interval.cleared iv' = true \/
       (Interval.progress iv + 5 * inject_Z (Z.of_nat (List.length draws))
        <= Interval.progress iv' /\ Interval.progress iv' < 100)%Q).
Proof.
  induction 1 as [|r rs Hr Hrs IH]; intros st iv Hiv Hc Hlt.
  - exists iv. split; [exact Hiv|]. right. simpl.
    change (inject_Z 0) with 0%Q. split; lra.
  - apply unit_draw_spec in Hr. destruct Hr as [Hr0 Hr1].
    pose proof (fireInterval_interval h r st iv Hiv Hc) as Hnext.
    unfold ticks. simpl. fold (ticks h rs (fireInterval h r st)).
    destruct (JS.ge (Interval.progress iv + (r * 15 + 5)) 100) eqn:E.
    + rewrite (ticks_cleared h rs _ _ Hnext eq_refl).
      eexists. split; [exact Hnext|]. left. reflexivity.
    + apply ge_false in E.
      destruct (IH _ _ Hnext eq_refl E) as (iv' & Hiv' & Hcase).
      exists iv'. split; [exact Hiv'|].
      destruct Hcase as [Hcl | [Hacc Hbelow]]; [now left|].
      right. split; [|exact Hbelow].
      simpl in Hacc.
      rewrite Zpos_P_of_succ_nat. unfold Z.succ. rewrite inject_Z_plus.
      change (inject_Z 1) with 1%Q. lra.
Qed.

(** After twenty ticks, whatever the draws, the interval has been cleared:
    the run has completed. *)
Lemma ticks_reach_completion (h : nat) (draws : list Q) (st : AppState)
  (iv : Interval.t) :
  Forall (fun r => unit_draw r = true) draws ->
  (20 <= List.length draws)%nat ->
  nth_error (intervals st) h = Some iv ->
  (0 <= Interval.progress iv)%Q ->
  Interval.cleared iv = false ->
  exists iv',
    nth_error (intervals (ticks h draws st)) h = Some iv' /\
    Interval.cleared iv' = true.
Proof.
  intros Hd Hlen Hiv H0 Hc.
  destruct draws as [|r rs]; [simpl in Hlen; lia|].
  inversion Hd as [|? ? Hr Hrs]; subst.
  apply unit_draw_spec in Hr. destruct Hr as [Hr0 Hr1].
  pose proof (fireInterval_interval h r st iv Hiv Hc) as Hnext.
  unfold ticks. simpl. fold (ticks h rs (fireInterval h r st)).
  destruct (JS.ge (Interval.progress iv + (r * 15 + 5)) 100) eqn:E.
  - rewrite (ticks_cleared h rs _ _ Hnext eq_refl).
    eexists. split; [exact Hnext | reflexivity].
  - apply ge_false in E.
    destruct (ticks_accumulate h rs Hrs _ _ Hnext eq_refl E)
      as (iv' & Hiv' & Hcase).
    exists iv'. split; [exact Hiv'|].
    destruct Hcase as [Hcl | [Hacc Hbelow]]; [exact Hcl|].
    exfalso. simpl in Hacc, Hlen.
    assert (Hn : (19 <= inject_Z (Z.of_nat (List.length rs)))%Q).
    { change 19%Q with (inject_Z 19). rewrite <- Zle_Qle. lia. }
    lra.
Qed.

(** The recorded progress is the rounded accumulated progress: with 99.6
    accumulated, the run reads 100 while still in stage [deploy]; the next
    tick completes it. *)
Lemma recorded_progress_rounds :
  map (fun iv => Qred (Interval.progress iv)) (intervals sampleAlmostDone)
  = [(498 # 5)%Q]
  /\ runView "1700000000000" sampleAlmostDone = [(deploy, 100%Q)]
  /\ runView "1700000000000" (fireInterval 0 0 sampleAlmostDone)
     = [(completed, 100%Q)].
Proof. vm_compute. repeat split. Qed.

(** ** The theorems on the sample session *)




Lemma progress_monotone_witness :
  wf_trace (initialState 0) (sampleStart ++ sampleRest) = true /\
  forall p p',
    In p (pipelines (exec (initialState 0) sampleStart)) ->
    In p' (pipelines (exec (initialState 0) (sampleStart ++ sampleRest))) ->
    Pipeline.id p' = Pipeline.id p ->
    (Pipeline.progress p <= Pipeline.progress p')%Q.
Proof.
  split.
  - vm_compute. reflexivity.
  - apply (progress_monotone 0 sampleStart sampleRest).
    vm_compute. reflexivity.
Defined.

Lemma progress_in_bounds_witness :
  draws_ok_trace (sampleStart ++ sampleRest) = true /\
  forall p,
    In p (pipelines (exec (initialState 0) (sampleStart ++ sampleRest))) ->
    exists n : Z, Pipeline.progress p = inject_Z n /\ 0 <= n <= 100.
Proof.
  split.
  - vm_compute. reflexivity.
  - apply (progress_in_bounds 0 (sampleStart ++ sampleRest)).
    vm_compute. reflexivity.
Defined.

(** * Further properties of the handlers *)

(** ** The registry *)

Lemma filter_all_kept {A : Type} (f : A -> bool) (xs : list A) :
  (forall x, In x xs -> f x = true) -> filter f xs = xs.
Proof.
  induction xs as [|x xs IH]; intro H; simpl; [reflexivity|].
  rewrite (H x) by now left. rewrite IH; [reflexivity|].
  intros y Hy. apply H. now right.
Qed.

Lemma filter_twice {A : Type} (f : A -> bool) (xs : list A) :
  filter f (filter f xs) = filter f xs.
Proof.
  apply filter_all_kept. intros x Hx. apply filter_In in Hx. tauto.
Qed.

Lemma with_status_same (repo : Repository.t) :
  Repository.with_status repo (Repository.status repo) = repo.
Proof. now destruct repo. Qed.

(** [updateRepositoryStatus] is an unconditional overwrite: whatever the
    current status, every entry with the id gets the new one, and nothing
    else changes: the registry keeps its length and order, every entry keeps
    all its other fields (the quality score among them), entries with
    another id keep their status, reviews and runs are not written.  The
    last write wins, and an id that names no repository changes nothing. *)
Theorem updateRepositoryStatus_overwrites :
  forall (repoId : string) (s : RepoStatus) (st : AppState),
    let st' := updateRepositoryStatus repoId s st in
    List.length (repositories st') = List.length (repositories st) /\
    (forall k repo,
       nth_error (repositories st) k = Some repo ->
       exists repo',
         nth_error (repositories st') k = Some repo' /\
         Repository.status repo'
         = (if Repository.id repo === repoId then s
            else Repository.status repo) /\
         Repository.with_status repo' (Repository.status repo) = repo) /\
    (forall s0,
       repositories
         (updateRepositoryStatus repoId s (updateRepositoryStatus repoId s0 st))
       = repositories st') /\
    ((forall repo, In repo (repositories st) -> Repository.id repo <> repoId) ->
     repositories st' = repositories st) /\
    reviews st' = reviews st /\
    pipelines st' = pipelines st.
Proof.
  intros repoId s st st'. subst st'. unfold updateRepositoryStatus. simpl.
  split; [apply length_map|]. split; [|split; [|split; [|split; reflexivity]]].
  - intros k repo Hk. rewrite nth_error_map, Hk. simpl.
    eexists. split; [reflexivity|].
    destruct (Repository.id repo === repoId); simpl.
    + split; [reflexivity | now destruct repo].
    + split; [reflexivity | apply with_status_same].
  - intro s0. rewrite map_map. apply map_ext. intro repo.
    destruct (Repository.id repo === repoId) eqn:E; simpl; rewrite E;
      reflexivity.
  - intro Hnone. rewrite <- (map_id (repositories st)) at 2.
    apply map_ext_in. intros repo Hin.
    specialize (Hnone repo Hin). apply String.eqb_neq in Hnone.
    now rewrite Hnone.
Qed.

Lemma updateRepositoryStatus_overwrites_witness :
  (forall repo, In repo (repositories (initialState 0)) ->
     Repository.id repo <> "7") /\
  repositories (updateRepositoryStatus "7" deployed (initialState 0))
  = repositories (initialState 0).
Proof.
  assert (H : forall repo, In repo (repositories (initialState 0)) ->
                Repository.id repo <> "7").
  { intros repo [<- | [<- | [<- | []]]]; discriminate. }
  split; [exact H|].
  apply (updateRepositoryStatus_overwrites "7" deployed (initialState 0)).
  exact H.
Defined.

(** What a duplicate connection does. *)
Lemma addRepository_duplicate (now : Z) (repoUrl : string) (st : AppState)
  (owner name : string) (repo : Repository.t) :
  urlParts repoUrl = [owner; name] ->
  In repo (repositories st) ->
  Repository.owner repo = owner -> Repository.name repo = name ->
  addRepository now repoUrl st
  = (false,
     perform (ConsoleError "Failed to add repository:"
                           "Repository already connected") st).
Proof.
  intros Hp Hin Ho Hn. unfold addRepository, addRepository_try.
  rewrite Hp. simpl.
  assert (Hex : existsb (fun repo0 =>
                  (Repository.owner repo0 === owner)
                  && (Repository.name repo0 === name)) (repositories st)
                = true).
  { apply existsb_exists. exists repo. split; [exact Hin|].
    now rewrite Ho, Hn, !String.eqb_refl. }
  rewrite Hex. reflexivity.
Qed.



(** Removing an id that names no repository and no review changes neither
    list, and removing twice is removing once. *)
Theorem removeRepository_absent_idempotent :
  forall (repoId : string) (st : AppState),
    ((forall repo, In repo (repositories st) -> Repository.id repo <> repoId) ->
     repositories (removeRepository repoId st) = repositories st) /\
    ((forall review, In review (reviews st) ->
        ReviewData.repositoryId review <> repoId) ->
     reviews (removeRepository repoId st) = reviews st) /\
    repositories (removeRepository repoId (removeRepository repoId st))
    = repositories (removeRepository repoId st) /\
    reviews (removeRepository repoId (removeRepository repoId st))
    = reviews (removeRepository repoId st) /\
    (forall repo, In repo (repositories (removeRepository repoId st)) ->
       Repository.id repo <> repoId) /\
    (forall review, In review (reviews (removeRepository repoId st)) ->
       ReviewData.repositoryId review <> repoId).
Proof.
  intros repoId st. unfold removeRepository. simpl.
  split; [|split; [|split; [|split; [|split]]]].
  - intro H. apply filter_all_kept. intros repo Hin.
    apply negb_true_iff, String.eqb_neq. now apply H.
  - intro H. apply filter_all_kept. intros review Hin.
    apply negb_true_iff, String.eqb_neq. now apply H.
  - apply filter_twice.
  - apply filter_twice.
  - intros repo Hin. apply filter_In in Hin. destruct Hin as [_ H].
    now apply negb_true_iff, String.eqb_neq in H.
  - intros review Hin. apply filter_In in Hin. destruct Hin as [_ H].
    now apply negb_true_iff, String.eqb_neq in H.
Qed.

Lemma removeRepository_absent_idempotent_witness :
  (forall repo, In repo (repositories (initialState 0)) ->
     Repository.id repo <> "7") /\
  repositories (removeRepository "7" (initialState 0))
  = repositories (initialState 0).
Proof.
  assert (H : forall repo, In repo (repositories (initialState 0)) ->
                Repository.id repo <> "7").
  { intros repo [<- | [<- | [<- | []]]]; discriminate. }
  split; [exact H|].
  exact (proj1 (removeRepository_absent_idempotent "7" (initialState 0)) H).
Defined.

(** Disconnecting a repository while its analysis is pending.  Let a
    connection be accepted at a clock reading that is not the id of a
    repository and not the [repositoryId] of a review.  Removing the new
    repository restores the registry and leaves the reviews as they were,
    but the analysis stays scheduled: when it runs, the registry is still
    unchanged and a review is put in front of the list whose [repositoryId]
    names no repository of the registry. *)
Theorem analysis_after_removal_adds_orphan_review :
  forall (now now' : Z) (repoUrl : string) (d : Draws) (st : AppState),
    fst (addRepository now repoUrl st) = true ->
    (forall repo, In repo (repositories st) ->
       Repository.id repo <> JS.toString now) ->
    (forall review, In review (reviews st) ->
       ReviewData.repositoryId review <> JS.toString now) ->
    let removed :=
      removeRepository (JS.toString now) (snd (addRepository now repoUrl st)) in
    let fired := fireTimeout (List.length (timeouts st)) now' d removed in
    repositories removed = repositories st /\
    reviews removed = reviews st /\
    (exists name,
       scheduled removed (List.length (timeouts st))
         (AnalysisCallback (JS.toString now) name)) /\
    repositories fired = repositories st /\
    exists review,
      reviews fired = review :: reviews st /\
      ReviewData.repositoryId review = JS.toString now /\
      ReviewData.author review = "ai-analysis" /\
      forall repo, In repo (repositories fired) ->
        Repository.id repo <> ReviewData.repositoryId review.
Proof.
  intros now now' repoUrl d st Hok Hrepos Hreviews removed fired.
  assert (Ef : fired = fireTimeout (List.length (timeouts st)) now' d removed)
    by reflexivity.
  assert (Er : removed
               = removeRepository (JS.toString now)
                   (snd (addRepository now repoUrl st))) by reflexivity.
  clearbody fired. clearbody removed.
  destruct (addRepository_accepted now repoUrl st Hok)
    as (owner & name & _ & E).
  rewrite E in Er.
  assert (Hr : repositories removed = repositories st).
  { rewrite Er. unfold removeRepository. simpl.
    rewrite filter_app. simpl. rewrite String.eqb_refl. simpl.
    rewrite app_nil_r. apply filter_all_kept. intros repo Hin.
    apply negb_true_iff, String.eqb_neq. now apply Hrepos. }
  assert (Hv : reviews removed = reviews st).
  { rewrite Er. unfold removeRepository. simpl.
    apply filter_all_kept. intros review Hin.
    apply negb_true_iff, String.eqb_neq. now apply Hreviews. }
  assert (Hs : scheduled removed (List.length (timeouts st))
                 (AnalysisCallback (JS.toString now) name)).
  { exists 3000. rewrite Er. unfold removeRepository. simpl.
    apply nth_error_snoc. }
  rewrite (fireTimeout_scheduled _ now' d removed _ Hs) in Ef.
  assert (Hf : repositories fired = repositories st).
  { rewrite Ef. unfold analysisCallback. simpl.
    rewrite Hr. unfold JS.mapi. apply mapi_from_fixed.
    intros k repo Hin. specialize (Hrepos repo Hin).
    apply String.eqb_neq in Hrepos. now rewrite Hrepos. }
  split; [exact Hr|]. split; [exact Hv|]. split; [now exists name|].
  split; [exact Hf|].
  eexists. split.
  - rewrite Ef. unfold analysisCallback. simpl. rewrite Hv. reflexivity.
  - simpl. split; [reflexivity|]. split; [reflexivity|].
    intros repo Hin. rewrite Hf in Hin. now apply Hrepos.
Qed.

Lemma analysis_after_removal_adds_orphan_review_witness :
  fst (addRepository 1700000000000 "https://github.com/owner/name"
         (initialState 0)) = true /\
  repositories
    (fireTimeout 0 1700000003000 sampleDraws
       (removeRepository "1700000000000" sampleConnected))
  = repositories (initialState 0).
Proof.
  split; [reflexivity|].
  apply (analysis_after_removal_adds_orphan_review 1700000000000 1700000003000
           "https://github.com/owner/name" sampleDraws (initialState 0)).
  - reflexivity.
  - intros repo [<- | [<- | [<- | []]]]; discriminate.
  - intros review [<- | [<- | [<- | []]]]; discriminate.
Defined.

(** ** Refreshing the registry *)

Lemma with_refresh_same (repo : Repository.t) :
  Repository.with_refresh repo (Repository.lastCommit repo)
    (Repository.qualityScore repo) = repo.
Proof. now destruct repo. Qed.

(** [refreshRepositories] raises [isRefreshing] and schedules its callback
    2000 ms later.  When the callback runs with its drift draws in [[0, 1)],
    [isRefreshing] is lowered and every repository keeps its place and all
    its fields except two: [lastCommit] is kept or becomes "just now", and
    the quality score moves by an integer between -5 and +4 and is floored
    at 50.  The status is not derived again from the new score. *)
Theorem refresh_drifts_scores :
  forall (h : nat) (now : Z) (d : Draws) (st : AppState),
    isRefreshing (refreshRepositories st) = true /\
    nth_error (timeouts (refreshRepositories st)) (List.length (timeouts st))
    = Some (Timeout.mk RefreshCallback 2000 false) /\
    (scheduled st h RefreshCallback ->
     refresh_draws_ok d ->
     let st' := fireTimeout h now d st in
     isRefreshing st' = false /\
     List.length (repositories st') = List.length (repositories st) /\
     forall k repo,
       nth_error (repositories st) k = Some repo ->
       exists repo' (drift : Z),
         nth_error (repositories st') k = Some repo' /\
         Repository.with_refresh repo' (Repository.lastCommit repo)
           (Repository.qualityScore repo) = repo /\
         (Repository.lastCommit repo' = "just now" \/
          Repository.lastCommit repo' = Repository.lastCommit repo) /\
         -5 <= drift <= 4 /\
         Repository.qualityScore repo'
         = JS.Math_max 50 (Repository.qualityScore repo + inject_Z (drift + 5) - 5) /\
         (50 <= Repository.qualityScore repo')%Q /\
         (Repository.qualityScore repo - 5 <= Repository.qualityScore repo')%Q /\
         (Repository.qualityScore repo' <= 50 \/
          Repository.qualityScore repo'
          <= Repository.qualityScore repo + 4)%Q).
Proof.
  intros h now d st. split; [reflexivity|]. split.
  { unfold refreshRepositories. simpl. apply nth_error_snoc. }
  intros Hs Hd st'. subst st'.
  rewrite (fireTimeout_scheduled h now d st _ Hs).
  unfold refreshCallback. simpl.
  split; [reflexivity|]. split; [apply mapi_from_length|].
  intros k repo Hk. unfold JS.mapi. rewrite mapi_from_nth_error, Hk. simpl.
  destruct (Hd k) as [H0 H1].
  assert (Hfl : 0 <= JS.Math_floor (dDelta d k * 10) < 10).
  { apply floor_range.
    - change (inject_Z 0) with 0%Q. lra.
    - change (inject_Z 10) with 10%Q. lra. }
  set (n := JS.Math_floor (dDelta d k * 10)) in *.
  assert (Hn : (0 <= inject_Z n /\ inject_Z n <= 9)%Q).
  { change 0%Q with (inject_Z 0). change 9%Q with (inject_Z 9).
    rewrite <- !Zle_Qle. lia. }
  eexists. exists (n - 5). split; [reflexivity|].
  split; [now destruct repo|].
  split; [destruct (JS.gt (dCommit d k) (1 # 2)); [now left | now right]|].
  split; [lia|]. simpl.
  replace (n - 5 + 5) with n by lia.
  split; [reflexivity|].
  unfold JS.Math_max.
  destruct (Qle_bool 50 (Repository.qualityScore repo + inject_Z n - 5)) eqn:E.
  - apply Qle_bool_iff in E. split; [exact E|]. split; [lra | right; lra].
  - assert (E' : (Repository.qualityScore repo + inject_Z n - 5 < 50)%Q).
    { apply Qnot_le_lt. intro H. apply Qle_bool_iff in H. congruence. }
    split; [lra|]. split; [lra | left; lra].
Qed.

Lemma refresh_drifts_scores_witness :
  scheduled (refreshRepositories (initialState 0)) 0 RefreshCallback /\
  refresh_draws_ok sampleDraws /\
  isRefreshing
    (fireTimeout 0 1700000002000 sampleDraws
       (refreshRepositories (initialState 0))) = false.
Proof.
  assert (Hs : scheduled (refreshRepositories (initialState 0)) 0
                 RefreshCallback) by (exists 2000; reflexivity).
  assert (Hd : refresh_draws_ok sampleDraws).
  { intro i. split; [vm_compute; discriminate | reflexivity]. }
  split; [exact Hs|]. split; [exact Hd|].
  exact (proj1 (proj2 (proj2 (refresh_drifts_scores 0 1700000002000
                                sampleDraws
                                (refreshRepositories (initialState 0))))
                  Hs Hd)).
Defined.

Lemma triggerDeployment_rejected_pipelines (now : Z)
  (repo : Repository.t) (environment : Environment) (st : AppState) :
  (Repository.qualityScore repo < 85)%Q ->
  pipelines (triggerDeployment now repo environment st) = pipelines st.
Proof.
  intro H. unfold triggerDeployment. apply lt_spec in H. now rewrite H.
Qed.

(** ** Manual review *)

(** A manual review, from the click to its callback, changes nothing but
    the status of the repositories with the id: they are [reviewing] in
    between and get the status derived from the drawn score at the end,
    while the stored quality score stays what it was.  The deployment gate
    reads the stored score, so a repository scoring below 85 is still
    rejected by [triggerDeployment] whatever status the review gave it. *)
Theorem manualReview_changes_only_status :
  forall (repoId : string) (now : Z) (d : Draws) (st : AppState),
    let started := triggerManualReview repoId st in
    let st' := fireTimeout (List.length (timeouts st)) now d started in
    (forall repo, In repo (repositories started) ->
       Repository.id repo = repoId -> Repository.status repo = reviewing) /\
    List.length (repositories st') = List.length (repositories st) /\
    forall k repo,
      nth_error (repositories st) k = Some repo ->
      exists repo',
        nth_error (repositories st') k = Some repo' /\
        Repository.with_status repo' (Repository.status repo) = repo /\
        Repository.status repo'
        = (if Repository.id repo === repoId
           then classify (inject_Z (drawScore (dScore d)))
           else Repository.status repo) /\
        Repository.qualityScore repo' = Repository.qualityScore repo /\
        ((Repository.qualityScore repo < 85)%Q ->
         forall now' environment s,
           pipelines (triggerDeployment now' repo' environment s)
           = pipelines s).
Proof.
  intros repoId now d st started st'.
  assert (Hs : scheduled started (List.length (timeouts st))
                 (ManualReviewCallback repoId)).
  { exists 3000. subst started. unfold triggerManualReview. simpl.
    apply nth_error_snoc. }
  split; [|split].
  - intros repo Hin Hid. subst started. unfold triggerManualReview in Hin.
    simpl in Hin. apply in_map_iff in Hin. destruct Hin as (r0 & <- & _).
    destruct (Repository.id r0 === repoId) eqn:E; [reflexivity|].
    apply String.eqb_neq in E. contradiction.
  - subst st'. rewrite (fireTimeout_scheduled _ now d started _ Hs).
    subst started. unfold manualReviewCallback, triggerManualReview. simpl.
    now rewrite !length_map.
  - intros k repo Hk. subst st'.
    rewrite (fireTimeout_scheduled _ now d started _ Hs).
    subst started. unfold manualReviewCallback, triggerManualReview. simpl.
    rewrite !nth_error_map, Hk. simpl.
    eexists. split; [reflexivity|].
    assert (Hq : forall r' : Repository.t,
               Repository.qualityScore r' = Repository.qualityScore repo ->
               (Repository.qualityScore repo < 85)%Q ->
               forall now' environment s,
                 pipelines (triggerDeployment now' r' environment s)
                 = pipelines s).
    { intros r' Eq Hlow now' environment s. rewrite <- Eq in Hlow.
      apply (triggerDeployment_rejected_pipelines now' r' environment s
               Hlow). }
    destruct (Repository.id repo === repoId) eqn:E; simpl; rewrite ?E; simpl.
    + split; [now destruct repo|]. split; [reflexivity|].
      split; [reflexivity|]. now apply Hq.
    + split; [apply with_status_same|]. split; [reflexivity|].
      split; [reflexivity|]. now apply Hq.
Qed.

Lemma manualReview_changes_only_status_witness :
  (74 < 85)%Q /\
  exists repo',
    nth_error
      (repositories
         (fireTimeout 0 1700000003000 sampleDraws
            (triggerManualReview "3" (initialState 0)))) 2
    = Some repo' /\
    Repository.status repo' = approved /\
    pipelines (triggerDeployment 1700000009000 repo' production (initialState 0))
    = pipelines (initialState 0).
Proof.
  split; [reflexivity|].
  destruct (proj2 (proj2 (manualReview_changes_only_status "3" 1700000003000
                            sampleDraws (initialState 0)))
              2%nat
              (Repository.mk "3" "mobile-app" "mycompany" "develop" "1h ago"
                 74%Q reviewing 2%Q "https://github.com/mycompany/mobile-app"
                 0 None)
              eq_refl)
    as (repo' & Hn & _ & Hst & _ & Hgate).
  exists repo'. split; [exact Hn|]. split.
  - rewrite Hst. reflexivity.
  - apply Hgate. reflexivity.
Defined.

(** ** No repository stays in analysis for ever *)

Lemma scheduled_append (st st' : AppState) (h : nat) (cb : TimeoutCallback)
  (extra : list Timeout.t) :
  timeouts st' = timeouts st ++ extra ->
  scheduled st h cb -> scheduled st' h cb.
Proof.
  intros E [ms H]. exists ms. rewrite E. rewrite nth_error_app1; [exact H|].
  apply nth_error_Some. congruence.
Qed.

(** When the timeouts only grow and every repository under analysis was
    already under analysis, with the same id, the invariant carries over. *)
Lemma analysing_scheduled_carried (st st' : AppState) (extra : list Timeout.t) :
  timeouts st' = timeouts st ++ extra ->
  (forall repo', In repo' (repositories st') ->
     Repository.isAnalyzing repo' = Some true ->
     exists repo, In repo (repositories st) /\
                  Repository.id repo = Repository.id repo' /\
                  Repository.isAnalyzing repo = Some true) ->
  analysing_scheduled st -> analysing_scheduled st'.
Proof.
  intros Et Hfrom Hinv repo' Hin Han.
  destruct (Hfrom repo' Hin Han) as (repo & Hr & Hid & Ha).
  destruct (Hinv repo Hr Ha) as (h & name & Hs).
  exists h, name. rewrite <- Hid. eapply scheduled_append; eassumption.
Qed.

Lemma status_update_source (repoId : string) (s : RepoStatus)
  (rs : list Repository.t) (repo' : Repository.t) :
  In repo'
     (map (fun repo => if Repository.id repo === repoId
                       then Repository.with_status repo s else repo) rs) ->
  Repository.isAnalyzing repo' = Some true ->
  exists repo, In repo rs /\
               Repository.id repo = Repository.id repo' /\
               Repository.isAnalyzing repo = Some true.
Proof.
  intros Hin Han. apply in_map_iff in Hin. destruct Hin as (repo & <- & Hr).
  exists repo. split; [exact Hr|].
  destruct (Repository.id repo === repoId); simpl in *; auto.
Qed.

Lemma same_registry_source (rs : list Repository.t) (repo' : Repository.t) :
  In repo' rs ->
  Repository.isAnalyzing repo' = Some true ->
  exists repo, In repo rs /\
               Repository.id repo = Repository.id repo' /\
               Repository.isAnalyzing repo = Some true.
Proof. intros Hin Han. exists repo'. auto. Qed.

Lemma analysing_scheduled_trigger (now : Z) (repo : Repository.t)
  (environment : Environment) (st : AppState) :
  analysing_scheduled st ->
  analysing_scheduled (triggerDeployment now repo environment st).
Proof.
  apply analysing_scheduled_carried with (extra := []).
  - rewrite app_nil_r. unfold triggerDeployment.
    destruct (JS.lt (Repository.qualityScore repo) 85); reflexivity.
  - unfold triggerDeployment.
    destruct (JS.lt (Repository.qualityScore repo) 85); simpl.
    + apply same_registry_source.
    + apply status_update_source.
Qed.

Lemma analysing_scheduled_tick (h : nat) (random : Q) (st : AppState) :
  analysing_scheduled st -> analysing_scheduled (fireInterval h random st).
Proof.
  unfold fireInterval.
  destruct (nth_error (intervals st) h) as [iv|]; [|trivial].
  destruct (Interval.cleared iv); [trivial|].
  apply analysing_scheduled_carried with (extra := []).
  - rewrite app_nil_r. unfold intervalCallback.
    destruct (JS.ge (Interval.progress iv + (random * 15 + 5)) 100);
      reflexivity.
  - unfold intervalCallback.
    destruct (JS.ge (Interval.progress iv + (random * 15 + 5)) 100); simpl.
    + apply status_update_source.
    + apply same_registry_source.
Qed.

Lemma analysing_scheduled_add (now : Z) (repoUrl : string) (st : AppState) :
  analysing_scheduled st ->
  analysing_scheduled (snd (addRepository now repoUrl st)).
Proof.
  intro Hinv.
  destruct (fst (addRepository now repoUrl st)) eqn:Hok.
  - destruct (addRepository_accepted now repoUrl st Hok)
      as (owner & name & _ & E).
    rewrite E. intros repo' Hin Han. simpl in Hin.
    apply in_app_iff in Hin. destruct Hin as [Hin | [<- | []]].
    + destruct (Hinv repo' Hin Han) as (h & name' & Hs).
      exists h, name'. eapply scheduled_append; [|exact Hs].
      simpl. reflexivity.
    + exists (List.length (timeouts st)), name. exists 3000. simpl.
      apply nth_error_snoc.
  - destruct (addRepository_rejected_frame now repoUrl st Hok) as [msg ->].
    exact Hinv.
Qed.

Lemma scheduled_after_other_fired (st : AppState) (h h' : nat)
  (cb : TimeoutCallback) :
  h <> h' -> scheduled st h' cb -> scheduled (mark_fired h st) h' cb.
Proof.
  intros Hne [ms H]. exists ms. unfold mark_fired. simpl.
  rewrite update_nth_other by exact Hne. exact H.
Qed.

Lemma analysing_scheduled_timeout (h : nat) (now : Z) (d : Draws)
  (st : AppState) :
  analysing_scheduled st -> analysing_scheduled (fireTimeout h now d st).
Proof.
  intro Hinv. unfold fireTimeout.
  destruct (nth_error (timeouts st) h) as [t|] eqn:Ht; [|exact Hinv].
  destruct (Timeout.fired t) eqn:Hfired; [exact Hinv|].
  assert (Hkeep : forall repo,
             In repo (repositories st) ->
             Repository.isAnalyzing repo = Some true ->
             (forall name, Timeout.callback t
                           <> AnalysisCallback (Repository.id repo) name) ->
             forall s, timeouts s = timeouts (mark_fired h st) ->
               exists h' name,
                 scheduled s h' (AnalysisCallback (Repository.id repo) name)).
  { intros repo Hin Han Hother s Es.
    destruct (Hinv repo Hin Han) as (h' & name & Hs).
    exists h', name.
    assert (Hne : h <> h').
    { intros ->. destruct Hs as [ms Hs]. rewrite Ht in Hs.
      injection Hs as ->. apply (Hother name). reflexivity. }
    destruct (scheduled_after_other_fired st h h' _ Hne Hs) as [ms Hm].
    exists ms. rewrite Es. exact Hm. }
  destruct (Timeout.callback t) as [newRepoId name|repoId|] eqn:Hcb.
  - intros repo' Hin Han.
    apply analysisCallback_repositories in Hin.
    destruct Hin as (k & repo & Hk & ->).
    apply nth_error_In in Hk.
    destruct (Repository.id repo === newRepoId) eqn:E; [discriminate|].
    apply String.eqb_neq in E.
    apply (Hkeep repo Hk Han); [|reflexivity].
    intros name' Heq. injection Heq as Heq _. congruence.
  - intros repo' Hin Han. unfold manualReviewCallback in Hin.
    apply updateRepositoryStatus_In in Hin.
    destruct Hin as (repo & Hr & ->).
    assert (Ha : Repository.isAnalyzing repo = Some true)
      by (destruct (Repository.id repo === repoId); exact Han).
    assert (Hid : Repository.id
                    (if Repository.id repo === repoId
                     then Repository.with_status repo
                            (classify (inject_Z (drawScore (dScore d))))
                     else repo) = Repository.id repo)
      by (destruct (Repository.id repo === repoId); reflexivity).
    rewrite Hid.
    apply (Hkeep repo Hr Ha); [|reflexivity].
    intros name' Heq. discriminate.
  - intros repo' Hin Han. unfold refreshCallback in Hin. simpl in Hin.
    unfold JS.mapi in Hin. apply mapi_from_In in Hin.
    destruct Hin as (k & repo & Hk & ->). apply nth_error_In in Hk.
    simpl in Han. simpl.
    apply (Hkeep repo Hk Han); [|reflexivity].
    intros name' Heq. discriminate.
Qed.

Lemma analysing_scheduled_step (st : AppState) (e : Event) :
  analysing_scheduled st -> analysing_scheduled (step st e).
Proof.
  intro Hinv.
  destruct e as [now repoUrl|repoId| |repoId|h now d
                |now repo environment|h random|pipelineId|now pipelineId];
    simpl.
  - now apply analysing_scheduled_add.
  - revert Hinv. apply analysing_scheduled_carried with (extra := []).
    + now rewrite app_nil_r.
    + intros repo' Hin Han. unfold removeRepository in Hin. simpl in Hin.
      apply filter_In in Hin. exists repo'. tauto.
  - revert Hinv.
    apply analysing_scheduled_carried
      with (extra := [Timeout.mk RefreshCallback 2000 false]).
    + reflexivity.
    + apply same_registry_source.
  - revert Hinv.
    apply analysing_scheduled_carried
      with (extra := [Timeout.mk (ManualReviewCallback repoId) 3000 false]).
    + reflexivity.
    + apply status_update_source.
  - now apply analysing_scheduled_timeout.
  - now apply analysing_scheduled_trigger.
  - now apply analysing_scheduled_tick.
  - exact Hinv.
  - unfold retryDeployment.
    destruct (find _ (pipelines st)) as [p|]; [|exact Hinv].
    destruct (find _ (repositories st)) as [repo|]; [|exact Hinv].
    now apply analysing_scheduled_trigger.
Qed.

Lemma analysing_scheduled_exec (es : list Event) (st : AppState) :
  analysing_scheduled st -> analysing_scheduled (exec st es).
Proof.
  revert st. induction es as [|e es IH]; intros st H; simpl; [exact H|].
  apply IH. now apply analysing_scheduled_step.
Qed.

Lemma analysing_scheduled_initial (t0 : Z) :
  analysing_scheduled (initialState t0).
Proof.
  intros repo [<- | [<- | [<- | []]]]; discriminate.
Qed.

(** In every state reached from the initial page, whatever the events and
    their draws, each repository whose [isAnalyzing] flag is raised has an
    analysis callback for its id scheduled and not yet run; when that
    callback runs it lowers the flag.  A repository is therefore never left
    in analysis without the timer that ends it. *)
Theorem analysing_repositories_have_pending_analysis :
  forall (t0 : Z) (es : list Event) (repo : Repository.t),
    In repo (repositories (exec (initialState t0) es)) ->
    Repository.isAnalyzing repo = Some true ->
    exists h name,
      scheduled (exec (initialState t0) es) h
        (AnalysisCallback (Repository.id repo) name) /\
      forall now d repo',
        In repo'
           (repositories (fireTimeout h now d (exec (initialState t0) es))) ->
        Repository.id repo' = Repository.id repo ->
        Repository.isAnalyzing repo' = Some false.
Proof.
  intros t0 es.
  assert (Hinv : analysing_scheduled (exec (initialState t0) es)).
  { apply analysing_scheduled_exec, analysing_scheduled_initial. }
  intros repo Hin Han. destruct (Hinv repo Hin Han) as (h & name & Hs).
  exists h, name. split; [exact Hs|].
  intros now d repo' Hin' Hid.
  rewrite (fireTimeout_scheduled h now d _ _ Hs) in Hin'.
  apply analysisCallback_repositories in Hin'.
  destruct Hin' as (k & r0 & _ & ->).
  destruct (Repository.id r0 === Repository.id repo) eqn:E; [reflexivity|].
  apply String.eqb_neq in E. contradiction.
Qed.

Lemma analysing_repositories_have_pending_analysis_witness :
  In (Repository.mk "1700000000000" "name" "owner" "main" "just now" 0%Q
        reviewing 0%Q "https://github.com/owner/name" 1700000000000
        (Some true))
     (repositories
        (exec (initialState 0)
           [EAddRepository 1700000000000 "https://github.com/owner/name"])) /\
  exists h name,
    scheduled
      (exec (initialState 0)
         [EAddRepository 1700000000000 "https://github.com/owner/name"])
      h (AnalysisCallback "1700000000000" name).
Proof.
  assert (Hin : In (Repository.mk "1700000000000" "name" "owner" "main"
                      "just now" 0%Q reviewing 0%Q
                      "https://github.com/owner/name" 1700000000000
                      (Some true))
                   (repositories
                      (exec (initialState 0)
                         [EAddRepository 1700000000000
                            "https://github.com/owner/name"]))).
  { simpl. right. right. right. left. reflexivity. }
  split; [exact Hin|].
  destruct (analysing_repositories_have_pending_analysis 0
              [EAddRepository 1700000000000 "https://github.com/owner/name"]
              _ Hin eq_refl) as (h & name & Hs & _).
  exists h, name. exact Hs.
Defined.

(** ** Stages and progress *)

(** The stage index a tick computes from a progress below 100. *)
Lemma stage_index_thresholds (progress : Q) (k : Z) :
  JS.Math_floor
    (progress / 100 * inject_Z (Z.of_nat (List.length stages) - 1)) = k
  <-> (inject_Z k * 25 <= progress /\ progress < inject_Z k * 25 + 25)%Q.
Proof.
  rewrite floor_spec.
  change (inject_Z (Z.of_nat (List.length stages) - 1)) with 4%Q.
  rewrite inject_Z_plus. change (inject_Z 1) with 1%Q.
  qdiv. split; intros [H1 H2]; split; lra.
Qed.

(** The stage a tick writes depends on the accumulated progress by
    quarters: below 25 the run is in [build], from 25 in [test], from 50 in
    [security], from 75 and below 100 in [deploy].  The tick rewrites the
    stage, the progress and the duration of the runs of its interval and
    nothing else: their other fields are kept and the runs with another id
    keep everything. *)
Theorem tick_stage_by_quarters :
  forall (s : AppState) (h : nat) (iv : Interval.t) (random : Q),
    nth_error (intervals s) h = Some iv ->
    Interval.cleared iv = false ->
    (0 <= Interval.progress iv)%Q ->
    (0 <= random)%Q -> (random < 1)%Q ->
    let progress := (Interval.progress iv + (random * 15 + 5))%Q in
    (progress < 100)%Q ->
    let s' := fireInterval h random s in
    List.length (pipelines s') = List.length (pipelines s) /\
    forall k p,
      nth_error (pipelines s) k = Some p ->
      exists p',
        nth_error (pipelines s') k = Some p' /\
        (Pipeline.id p <> Interval.pipelineId iv -> p' = p) /\
        (Pipeline.id p = Interval.pipelineId iv ->
         Pipeline.with_tick p' (Pipeline.stage p) (Pipeline.progress p)
           (Pipeline.duration p) = p /\
         (Pipeline.stage p' = build <-> (progress < 25)%Q) /\
         (Pipeline.stage p' = test <-> (25 <= progress /\ progress < 50)%Q) /\
         (Pipeline.stage p' = security <->
          (50 <= progress /\ progress < 75)%Q) /\
         (Pipeline.stage p' = deploy <-> (75 <= progress)%Q)).
Proof.
  intros s h iv random Hiv Hlive Hacc H0 H1 progress Hlt s'. subst s'.
  rewrite (fireInterval_live h random s iv Hiv Hlive).
  rewrite (intervalCallback_running h iv random s Hlt).
  fold progress. simpl.
  split; [apply length_map|].
  intros k p Hk. rewrite nth_error_map, Hk. simpl.
  eexists. split; [reflexivity|].
  unfold tickUpdate. split.
  - intro Hne. apply String.eqb_neq in Hne. now rewrite Hne.
  - intro Heq. rewrite Heq, String.eqb_refl.
    split; [now destruct p|].
    assert (Hpos : (0 <= progress)%Q) by (subst progress; lra).
    pose proof (tick_index_in_range progress Hpos Hlt) as Hrange.
    change (JS.Math_floor (progress / 100 * inject_Z 4))
      with (JS.Math_floor
              (progress / 100
               * inject_Z (Z.of_nat (List.length stages) - 1))).
    set (index := JS.Math_floor
                    (progress / 100
                     * inject_Z (Z.of_nat (List.length stages) - 1))) in *.
    pose proof (proj1 (stage_index_thresholds progress index) eq_refl)
      as [Hlo Hhi].
    assert (E : index = 0 \/ index = 1 \/ index = 2 \/ index = 3) by lia.
    destruct E as [E | [E | [E | E]]]; rewrite E in *; simpl;
      change (inject_Z 0) with 0%Q in *; change (inject_Z 1) with 1%Q in *;
      change (inject_Z 2) with 2%Q in *; change (inject_Z 3) with 3%Q in *;
      repeat split; intros; try discriminate; try lra.
Qed.

Lemma tick_stage_by_quarters_witness :
  exists p',
    nth_error
      (pipelines
         (fireInterval 0 (1 # 2)
            (triggerDeployment 1700000000000 sampleRepo staging
               (initialState 0)))) 0
    = Some p' /\
    Pipeline.stage p' = build.
Proof.
  destruct (proj2 (tick_stage_by_quarters
                     (triggerDeployment 1700000000000 sampleRepo staging
                        (initialState 0))
                     0 (Interval.mk "1700000000000" "1" 0%Q 0 false) (1 # 2)
                     eq_refl eq_refl
                     ltac:(vm_compute; discriminate)
                     ltac:(vm_compute; discriminate)
                     ltac:(reflexivity)
                     ltac:(reflexivity))
              0%nat
              (Pipeline.mk "1700000000000" "react-dashboard" "1" "main" build
                 0%Q "just now" "0s" true staging)
              eq_refl)
    as (p' & Hn & _ & Hrun).
  exists p'. split; [exact Hn|].
  apply (proj2 (Hrun eq_refl)). reflexivity.
Defined.

(** ** How long a run takes *)

(** The tick that reaches 100 completes the run. *)
Lemma fireInterval_completes (h : nat) (random : Q) (st : AppState)
  (iv : Interval.t) :
  nth_error (intervals st) h = Some iv ->
  Interval.cleared iv = false ->
  (100 <= Interval.progress iv + (random * 15 + 5))%Q ->
  run_completed h iv (fireInterval h random st).
Proof.
  intros Hiv Hc Hge.
  pose proof (fireInterval_interval h random st iv Hiv Hc) as Hnext.
  rewrite (proj2 (ge_spec _ _) Hge) in Hnext.
  split; [exact Hnext|].
  rewrite (fireInterval_live h random st iv Hiv Hc).
  rewrite (intervalCallback_done h iv random st Hge). simpl.
  split.
  - intros p' Hin Hid.
    destruct (tickUpdate_In _ _ _ _ _ Hin Hid) as (p & _ & _ & ->).
    split; reflexivity.
  - intros r Hin Hid. apply in_map_iff in Hin.
    destruct Hin as (r0 & <- & _).
    destruct (Repository.id r0 === Interval.repoId iv) eqn:E; [reflexivity|].
    apply String.eqb_neq in E. contradiction.
Qed.

Lemma run_completed_same_names (h : nat) (iv iv' : Interval.t)
  (st : AppState) :
  Interval.pipelineId iv' = Interval.pipelineId iv ->
  Interval.repoId iv' = Interval.repoId iv ->
  run_completed h iv' st -> run_completed h iv st.
Proof. unfold run_completed. intros -> ->. trivial. Qed.

(** After [n] ticks a live interval has completed its run, or it is still
    live and has accumulated between [5 * n] and [20 * n] more. *)
Lemma ticks_outcome (h : nat) (draws : list Q) :
  Forall (fun r => unit_draw r = true) draws ->
  forall (st : AppState) (iv : Interval.t),
    nth_error (intervals st) h = Some iv ->
    Interval.cleared iv = false ->
    (Interval.progress iv < 100)%Q ->
    run_completed h iv (ticks h draws st) \/
    exists iv',
      nth_error (intervals (ticks h draws st)) h = Some iv' /\
      Interval.cleared iv' = false /\
      (Interval.progress iv + 5 * inject_Z (Z.of_nat (List.length draws))
       <= Interval.progress iv' /\ Interval.progress iv' < 100)%Q.
Proof.
  induction 1 as [|r rs Hr Hrs IH]; intros st iv Hiv Hc Hlt.
  - right. exists iv. split; [exact Hiv|]. split; [exact Hc|]. simpl.
    change (inject_Z 0) with 0%Q. split; lra.
  - apply unit_draw_spec in Hr. destruct Hr as [Hr0 Hr1].
    pose proof (fireInterval_interval h r st iv Hiv Hc) as Hnext.
    unfold ticks. simpl. fold (ticks h rs (fireInterval h r st)).
    destruct (JS.ge (Interval.progress iv + (r * 15 + 5)) 100) eqn:E.
    + left. apply ge_spec in E.
      rewrite (ticks_cleared h rs _ _ Hnext eq_refl).
      now apply fireInterval_completes.
    + apply ge_false in E.
      destruct (IH _ _ Hnext eq_refl E) as [Hdone | (iv' & Hiv' & Hc' & Hacc & Hb)].
      * left. eapply run_completed_same_names; [| |exact Hdone]; reflexivity.
      * right. exists iv'. split; [exact Hiv'|]. split; [exact Hc'|].
        split; [|exact Hb]. simpl in Hacc.
        rewrite Zpos_P_of_succ_nat. unfold Z.succ. rewrite inject_Z_plus.
        change (inject_Z 1) with 1%Q. lra.
Qed.

(** Twenty ticks of a live interval, whatever their draws in [[0, 1)] and
    whatever progress it had accumulated, complete its run: the interval is
    cleared, its runs are [completed] with progress 100 and its repository
    is [deployed]; further ticks change nothing. *)
Theorem twenty_ticks_complete_the_run :
  forall (h : nat) (draws : list Q) (st : AppState) (iv : Interval.t),
    Forall (fun r => unit_draw r = true) draws ->
    (20 <= List.length draws)%nat ->
    nth_error (intervals st) h = Some iv ->
    Interval.cleared iv = false ->
    (0 <= Interval.progress iv)%Q ->
    run_completed h iv (ticks h draws st) /\
    forall random,
      fireInterval h random (ticks h draws st) = ticks h draws st.
Proof.
  intros h draws st iv Hd Hlen Hiv Hc H0.
  assert (Hdone : run_completed h iv (ticks h draws st)).
  { destruct draws as [|r rs]; [simpl in Hlen; lia|].
    inversion Hd as [|? ? Hr Hrs]; subst.
    apply unit_draw_spec in Hr. destruct Hr as [Hr0 Hr1].
    pose proof (fireInterval_interval h r st iv Hiv Hc) as Hnext.
    unfold ticks. simpl. fold (ticks h rs (fireInterval h r st)).
    destruct (JS.ge (Interval.progress iv + (r * 15 + 5)) 100) eqn:E.
    - apply ge_spec in E. rewrite (ticks_cleared h rs _ _ Hnext eq_refl).
      now apply fireInterval_completes.
    - apply ge_false in E.
      destruct (ticks_outcome h rs Hrs _ _ Hnext eq_refl E)
        as [Hdone | (iv' & _ & _ & Hacc & Hb)].
      + eapply run_completed_same_names; [| |exact Hdone]; reflexivity.
      + exfalso. simpl in Hacc, Hlen.
        assert (Hn : (19 <= inject_Z (Z.of_nat (List.length rs)))%Q).
        { change 19%Q with (inject_Z 19). rewrite <- Zle_Qle. lia. }
        lra. }
  split; [exact Hdone|].
  intro random. destruct Hdone as (Hnth & _).
  eapply fireInterval_cleared; [exact Hnth | reflexivity].
Qed.

Lemma twenty_ticks_complete_the_run_witness :
  Forall (fun r => unit_draw r = true) (repeat 0%Q 20) /\
  run_completed 0 (Interval.mk "1700000000000" "1" 0%Q 0 false)
    (ticks 0 (repeat 0%Q 20)
       (triggerDeployment 1700000000000 sampleRepo staging (initialState 0))).
Proof.
  assert (Hd : Forall (fun r => unit_draw r = true) (repeat 0%Q 20))
    by (repeat constructor).
  split; [exact Hd|].
  apply (twenty_ticks_complete_the_run 0 (repeat 0%Q 20)
           (triggerDeployment 1700000000000 sampleRepo staging
              (initialState 0))
           (Interval.mk "1700000000000" "1" 0%Q 0 false) Hd).
  - simpl. lia.
  - reflexivity.
  - reflexivity.
  - vm_compute. discriminate.
Defined.

(** While [20 * n] more cannot reach 100, [n] ticks leave the interval
    live, with less than [20 * n] added. *)
Lemma ticks_stay_live (h : nat) (draws : list Q) :
  Forall (fun r => unit_draw r = true) draws ->
  forall (st : AppState) (iv : Interval.t),
    nth_error (intervals st) h = Some iv ->
    Interval.cleared iv = false ->
    (Interval.progress iv + 20 * inject_Z (Z.of_nat (List.length draws))
     <= 100)%Q ->
    exists iv',
      nth_error (intervals (ticks h draws st)) h = Some iv' /\
      Interval.cleared iv' = false /\
      Interval.pipelineId iv' = Interval.pipelineId iv /\
      (Interval.progress iv'
       <= Interval.progress iv
          + 20 * inject_Z (Z.of_nat (List.length draws)))%Q /\
      (draws <> [] -> Interval.progress iv' < 100)%Q.
Proof.
  induction 1 as [|r rs Hr Hrs IH]; intros st iv Hiv Hc Hle.
  - exists iv. split; [exact Hiv|]. split; [exact Hc|].
    split; [reflexivity|]. simpl. change (inject_Z 0) with 0%Q.
    split; [lra | congruence].
  - apply unit_draw_spec in Hr. destruct Hr as [Hr0 Hr1].
    pose proof (fireInterval_interval h r st iv Hiv Hc) as Hnext.
    unfold ticks. simpl. fold (ticks h rs (fireInterval h r st)).
    simpl in Hle. rewrite Zpos_P_of_succ_nat in Hle. unfold Z.succ in Hle.
    rewrite inject_Z_plus in Hle. change (inject_Z 1) with 1%Q in Hle.
    assert (Hn : (0 <= inject_Z (Z.of_nat (List.length rs)))%Q).
    { change 0%Q with (inject_Z 0). rewrite <- Zle_Qle. lia. }
    assert (E : JS.ge (Interval.progress iv + (r * 15 + 5)) 100 = false)
      by (apply ge_false; lra).
    rewrite E in Hnext.
    destruct (IH _ _ Hnext eq_refl) as (iv' & Hiv' & Hc' & Hid & Hacc & Hb).
    { simpl. lra. }
    exists iv'. split; [exact Hiv'|]. split; [exact Hc'|].
    split; [exact Hid|]. simpl in Hacc.
    rewrite Zpos_P_of_succ_nat. unfold Z.succ. rewrite inject_Z_plus.
    change (inject_Z 1) with 1%Q.
    split; [lra|]. intros _.
    destruct rs as [|r' rs'].
    + unfold ticks in Hiv'. simpl in Hiv'. rewrite Hnext in Hiv'.
      injection Hiv' as <-. simpl. lra.
    + apply Hb. discriminate.
Qed.



(** ** The duration label *)

Lemma trunc_nonneg (x : Q) : (0 <= x)%Q -> JS.trunc x = JS.Math_floor x.
Proof.
  intro H. unfold JS.trunc, JS.Math_floor, Qfloor.
  destruct x as [n d]. simpl. apply Z.quot_div_nonneg; [|lia].
  unfold Qle in H. simpl in H. lia.
Qed.

(** For a progress of [[0, 100]] the duration label is [<m>m <s>s] with
    [m] the tens of the progress, between 0 and 10, and [s] six times what
    remains, rounded down, between 0 and 59: the seconds never reach 60. *)
Theorem durationLabel_fields :
  forall (progress : Q),
    (0 <= progress)%Q -> (progress <= 100)%Q ->
    exists m s : Z,
      durationLabel progress
      = (JS.toString m ++ "m " ++ JS.toString s ++ "s")%string /\
      0 <= m <= 10 /\ 0 <= s <= 59 /\
      (inject_Z m * 10 <= progress /\ progress < inject_Z m * 10 + 10)%Q /\
      (inject_Z s <= (progress - inject_Z m * 10) * 6 /\
       (progress - inject_Z m * 10) * 6 < inject_Z s + 1)%Q.
Proof.
  intros progress H0 H100.
  set (m := JS.Math_floor (progress / 10)).
  assert (Hm : (inject_Z m <= progress / 10 /\ progress / 10 < inject_Z m + 1)%Q).
  { pose proof (proj1 (floor_spec (progress / 10) m) eq_refl) as [A B].
    rewrite inject_Z_plus in B. change (inject_Z 1) with 1%Q in B.
    split; assumption. }
  assert (Hm' : (inject_Z m * 10 <= progress /\ progress < inject_Z m * 10 + 10)%Q).
  { destruct Hm as [A B]. revert A B. qdiv. intros A B. split; lra. }
  assert (Hmr : 0 <= m <= 10).
  { assert (R : 0 <= m < 11).
    { apply floor_range.
      - change (inject_Z 0) with 0%Q. qdiv. lra.
      - change (inject_Z 11) with 11%Q. qdiv. lra. }
    lia. }
  assert (Et : JS.trunc (progress / 10) = m).
  { apply trunc_nonneg. qdiv. lra. }
  set (s := JS.Math_floor (JS.rem progress 10 * 6)).
  assert (Er : (JS.rem progress 10 == progress - inject_Z m * 10)%Q).
  { unfold JS.rem. rewrite Et. ring. }
  assert (Hs : (inject_Z s <= (progress - inject_Z m * 10) * 6 /\
                (progress - inject_Z m * 10) * 6 < inject_Z s + 1)%Q).
  { pose proof (proj1 (floor_spec (JS.rem progress 10 * 6) s) eq_refl)
      as [A B].
    rewrite inject_Z_plus in B. change (inject_Z 1) with 1%Q in B.
    rewrite Er in A, B. split; assumption. }
  exists m, s. split; [reflexivity|]. split; [exact Hmr|].
  split; [|split; [exact Hm' | exact Hs]].
  assert (R : 0 <= s < 60).
  { apply floor_range; rewrite Er.
    - change (inject_Z 0) with 0%Q. lra.
    - change (inject_Z 60) with 60%Q. lra. }
  lia.
Qed.

Lemma durationLabel_fields_witness :
  (0 <= 25 # 2)%Q /\ (25 # 2 <= 100)%Q /\
  exists m s : Z,
    durationLabel (25 # 2)
    = (JS.toString m ++ "m " ++ JS.toString s ++ "s")%string /\
    0 <= m <= 10 /\ 0 <= s <= 59.
Proof.
  assert (A : (0 <= 25 # 2)%Q) by (vm_compute; discriminate).
  assert (B : (25 # 2 <= 100)%Q) by (vm_compute; discriminate).
  split; [exact A|]. split; [exact B|].
  destruct (durationLabel_fields (25 # 2) A B) as (m & s & E & Hm & Hs & _).
  exists m, s. split; [exact E|]. split; [exact Hm | exact Hs].
Defined.

(** ** Cancelling and the active runs *)

Lemma with_failed_stage (p : Pipeline.t) :
  Pipeline.stage (Pipeline.with_failed p) = failed.
Proof. reflexivity. Qed.

(** [cancelDeployment] acts on the active runs only, as the page lists them:
    the active runs afterwards are the active runs before without those of
    the cancelled id.  A run that is completed, failed or of another id is
    left as it is; a cancelled run changes in its stage only.  Cancelling
    again changes nothing more.  The registry and the intervals are never
    touched: the repository of a cancelled run keeps its status and the
    interval of the run stays live. *)
Theorem cancelDeployment_active_runs :
  forall (pipelineId : string) (st : AppState),
    let st' := cancelDeployment pipelineId st in
    activePipelines (pipelines st')
    = filter (fun p => negb (Pipeline.id p === pipelineId))
             (activePipelines (pipelines st)) /\
    List.length (pipelines st') = List.length (pipelines st) /\
    (forall k p,
       nth_error (pipelines st) k = Some p ->
       exists p',
         nth_error (pipelines st') k = Some p' /\
         (Pipeline.id p <> pipelineId \/ Pipeline.stage p = completed
          \/ Pipeline.stage p = failed -> p' = p) /\
         (Pipeline.id p = pipelineId -> Pipeline.stage p <> completed ->
          Pipeline.stage p' = failed) /\
         Pipeline.with_tick p' (Pipeline.stage p) (Pipeline.progress p')
           (Pipeline.duration p') = p) /\
    pipelines (cancelDeployment pipelineId st') = pipelines st' /\
    repositories st' = repositories st /\
    intervals st' = intervals st.
Proof.
  intros pipelineId st st'. subst st'.
  rewrite !cancelDeployment_pipelines.
  split; [|split; [apply length_map|split; [|split; [|split; reflexivity]]]].
  - unfold activePipelines.
    induction (pipelines st) as [|p ps IH]; [reflexivity|]. simpl.
    rewrite IH. clear IH.
    destruct (Pipeline.id p === pipelineId) eqn:E;
      destruct (Pipeline.stage p) eqn:Es; simpl; rewrite ?Es, ?E; simpl;
      reflexivity.
  - intros k p Hk. rewrite nth_error_map, Hk. simpl.
    eexists. split; [reflexivity|].
    destruct (Pipeline.id p === pipelineId) eqn:E;
      destruct (Pipeline.stage p) eqn:Es; simpl;
      (split; [|split]).
    all: try (destruct p; simpl in *; subst; reflexivity).
    all: try (intros Hid Hnc; first [reflexivity | congruence
                | apply String.eqb_neq in E; contradiction]).
    all: intro H; try reflexivity;
      destruct H as [H | [H | H]];
      [apply String.eqb_eq in E; contradiction | congruence | congruence].
  - rewrite map_map. apply map_ext. intro p.
    destruct (Pipeline.id p === pipelineId) eqn:E;
      destruct (Pipeline.stage p) eqn:Es; simpl; rewrite ?Es, ?E; simpl;
      reflexivity.
Qed.

Lemma cancelDeployment_active_runs_witness :
  runView "1700000000000" sampleRunning = [(build, 13%Q)] /\
  activePipelines (pipelines sampleCancelled)
  = filter (fun p => negb (Pipeline.id p === "1700000000000"))
           (activePipelines (pipelines sampleRunning)).
Proof.
  split; [vm_compute; reflexivity|].
  exact (proj1 (cancelDeployment_active_runs "1700000000000" sampleRunning)).
Defined.

(** ** Retrying what cannot be retried *)

Lemma find_absent {A : Type} (f : A -> bool) (xs : list A) :
  (forall x, In x xs -> f x = false) -> find f xs = None.
Proof.
  induction xs as [|x xs IH]; intro H; simpl; [reflexivity|].
  rewrite (H x) by now left. apply IH. intros y Hy. apply H. now right.
Qed.

(** [retryDeployment] does nothing at all, not even an alert, when no run
    has the id, and when the run it finds belongs to a repository that is
    not in the registry: once a repository has been removed, its runs stay
    in the list but can no longer be retried. *)
Theorem retryDeployment_silent_when_missing :
  forall (now : Z) (pipelineId : string) (st : AppState),
    ((forall q, In q (pipelines st) -> Pipeline.id q <> pipelineId) ->
     retryDeployment now pipelineId st = st) /\
    (forall p,
       find (fun q => Pipeline.id q === pipelineId) (pipelines st) = Some p ->
       (forall r, In r (repositories st) ->
          Repository.id r <> Pipeline.repositoryId p) ->
       retryDeployment now pipelineId st = st) /\
    (forall p,
       find (fun q => Pipeline.id q === pipelineId) (pipelines st) = Some p ->
       let removed := removeRepository (Pipeline.repositoryId p) st in
       In p (pipelines removed) /\
       retryDeployment now pipelineId removed = removed).
Proof.
  intros now pipelineId st.
  assert (Hrepo : forall p s,
             find (fun q => Pipeline.id q === pipelineId) (pipelines s)
             = Some p ->
             (forall r, In r (repositories s) ->
                Repository.id r <> Pipeline.repositoryId p) ->
             retryDeployment now pipelineId s = s).
  { intros p s Hp Hnone. unfold retryDeployment. rewrite Hp.
    rewrite find_absent; [reflexivity|].
    intros r Hr. apply String.eqb_neq. now apply Hnone. }
  split; [|split].
  - intro Hnone. unfold retryDeployment.
    rewrite find_absent; [reflexivity|].
    intros q Hq. apply String.eqb_neq. now apply Hnone.
  - intro p. apply Hrepo.
  - intros p Hp removed. split.
    + apply find_some in Hp. exact (proj1 Hp).
    + apply (Hrepo p removed Hp).
      intros r Hr. unfold removed, removeRepository in Hr. simpl in Hr.
      apply filter_In in Hr. destruct Hr as [_ H].
      now apply negb_true_iff, String.eqb_neq in H.
Qed.

Lemma retryDeployment_silent_when_missing_witness :
  find (fun q => Pipeline.id q === "3") (pipelines (initialState 0))
  = Some (Pipeline.mk "3" "mobile-app" "3" "develop" failed 45%Q
            "1h ago" "2m 15s" false staging) /\
  retryDeployment 1700000000000 "3" (removeRepository "3" (initialState 0))
  = removeRepository "3" (initialState 0).
Proof.
  split; [reflexivity|].
  exact (proj2 (proj2 (proj2 (retryDeployment_silent_when_missing
                                1700000000000 "3" (initialState 0)))
                  _ eq_refl)).
Defined.

(** ** Figures shown on the page *)

Lemma round_of_integer (n : Z) : JS.Math_round (inject_Z n) = n.
Proof.
  unfold JS.Math_round. apply floor_spec. split.
  - rewrite <- (Qplus_0_r (inject_Z n)) at 1. apply Qplus_le_r. discriminate.
  - rewrite inject_Z_plus. apply Qplus_lt_r. reflexivity.
Qed.

Lemma round_between (x : Q) (lo hi : Z) :
  (inject_Z lo <= x)%Q -> (x <= inject_Z hi)%Q ->
  lo <= JS.Math_round x <= hi.
Proof.
  intros Hlo Hhi. split.
  - rewrite <- (round_of_integer lo). now apply round_mono.
  - rewrite <- (round_of_integer hi). now apply round_mono.
Qed.

(** The sum a [reduce] accumulates lies between the bounds of its terms. *)
Lemma reduce_sum_bounds {A : Type} (f : A -> Q) (lo hi : Q) (xs : list A)
  (acc : Q) :
  (forall x, In x xs -> (lo <= f x /\ f x <= hi)%Q) ->
  (acc + lo * inject_Z (Z.of_nat (List.length xs))
   <= fold_left (fun a x => a + f x)%Q xs acc /\
   fold_left (fun a x => a + f x)%Q xs acc
   <= acc + hi * inject_Z (Z.of_nat (List.length xs)))%Q.
Proof.
  revert acc. induction xs as [|x xs IH]; intros acc H.
  - simpl. change (inject_Z 0) with 0%Q. split; lra.
  - destruct (H x (or_introl eq_refl)) as [Hlo Hhi].
    assert (Hrest : forall y, In y xs -> (lo <= f y /\ f y <= hi)%Q)
      by (intros y Hy; apply H; now right).
    destruct (IH (acc + f x)%Q Hrest) as [Ha Hb].
    change (fold_left (fun a y => (a + f y)%Q) (x :: xs) acc)
      with (fold_left (fun a y => (a + f y)%Q) xs (acc + f x)%Q).
    change (List.length (x :: xs)) with (S (List.length xs)).
    rewrite Nat2Z.inj_succ. unfold Z.succ. rewrite inject_Z_plus.
    change (inject_Z 1) with 1%Q.
    set (n := inject_Z (Z.of_nat (List.length xs))) in *.
    split; nra.
Qed.

Lemma average_bounds {A : Type} (f : A -> Q) (lo hi : Z) (xs : list A) :
  xs <> [] ->
  (forall x, In x xs -> (inject_Z lo <= f x /\ f x <= inject_Z hi)%Q) ->
  lo <= JS.Math_round
          (fold_left (fun a x => a + f x)%Q xs 0%Q
           / inject_Z (Z.of_nat (List.length xs))) <= hi.
Proof.
  intros Hne H.
  destruct (reduce_sum_bounds f (inject_Z lo) (inject_Z hi) xs 0%Q H)
    as [Ha Hb].
  assert (Hn : (0 < inject_Z (Z.of_nat (List.length xs)))%Q).
  { change 0%Q with (inject_Z 0). rewrite <- Zlt_Qlt.
    destruct xs; [congruence | simpl; lia]. }
  apply round_between.
  - apply Qle_shift_div_l; [exact Hn|]. lra.
  - apply Qle_shift_div_r; [exact Hn|]. lra.
Qed.

(** The average quality score shown by Home and by the chat is 0 for an
    empty registry (there is no division by zero) and otherwise lies between
    the lowest and the highest score: when every score is between two
    integers, so is the average.  The same holds for the average over the
    reviews shown by the review panel. *)
Theorem average_scores_bounded :
  averageQualityScore [] = 0 /\
  averageReviewScore [] = 0 /\
  (forall (lo hi : Z) (rs : list Repository.t),
     rs <> [] ->
     (forall r, In r rs ->
        (inject_Z lo <= Repository.qualityScore r /\
         Repository.qualityScore r <= inject_Z hi)%Q) ->
     lo <= averageQualityScore rs <= hi) /\
  (forall (lo hi : Z) (rs : list ReviewData.t),
     rs <> [] ->
     (forall r, In r rs ->
        (inject_Z lo <= ReviewData.qualityScore r /\
         ReviewData.qualityScore r <= inject_Z hi)%Q) ->
     lo <= averageReviewScore rs <= hi).
Proof.
  split; [reflexivity|]. split; [reflexivity|]. split.
  - intros lo hi rs Hne H. unfold averageQualityScore.
    destruct rs as [|r rs]; [congruence|].
    change (Nat.ltb 0 (List.length (r :: rs))) with true. cbv iota.
    now apply (average_bounds Repository.qualityScore).
  - intros lo hi rs Hne H. unfold averageReviewScore.
    destruct rs as [|r rs]; [congruence|].
    change (Nat.ltb 0 (List.length (r :: rs))) with true. cbv iota.
    now apply (average_bounds ReviewData.qualityScore).
Qed.

Lemma average_scores_bounded_witness :
  initialRepositories 0 <> [] /\
  74 <= averageQualityScore (initialRepositories 0) <= 92.
Proof.
  assert (Hne : initialRepositories 0 <> []) by discriminate.
  split; [exact Hne|].
  apply (proj1 (proj2 (proj2 average_scores_bounded)) 74 92
           (initialRepositories 0) Hne).
  intros r [<- | [<- | [<- | []]]]; split; vm_compute; discriminate.
Defined.

(** The review panel's filter.  ['all'] shows every review; the three
    status filters split the reviews: a review is shown by the filter of its
    own status and by no other, so the three counts shown on the filter
    buttons add up to the total.  Filtering keeps the order of the list,
    newest first. *)
Theorem filteredReviews_partition :
  forall (rs : list ReviewData.t),
    filteredReviews filter_all rs = rs /\
    (List.length (filteredReviews filter_completed rs)
     + List.length (filteredReviews filter_pending rs)
     + List.length (filteredReviews filter_failed rs)
     = List.length rs)%nat /\
    (forall r,
       In r (filteredReviews filter_completed rs)
       <-> In r rs /\ ReviewData.status r = review_completed) /\
    (forall r,
       In r (filteredReviews filter_pending rs)
       <-> In r rs /\ ReviewData.status r = pending) /\
    (forall r,
       In r (filteredReviews filter_failed rs)
       <-> In r rs /\ ReviewData.status r = review_failed) /\
    (forall f r others,
       filteredReviews f (r :: others)
       = if filterIsAll f || statusIs (ReviewData.status r) f
         then r :: filteredReviews f others
         else filteredReviews f others).
Proof.
  intro rs. unfold filteredReviews.
  split; [apply filter_all_kept; reflexivity|].
  split; [|split; [|split; [|split]]].
  - induction rs as [|r rs IH]; [reflexivity|]. simpl in *.
    destruct (ReviewData.status r); simpl; lia.
  - intro r. rewrite filter_In. simpl.
    destruct (ReviewData.status r); simpl; intuition congruence.
  - intro r. rewrite filter_In. simpl.
    destruct (ReviewData.status r); simpl; intuition congruence.
  - intro r. rewrite filter_In. simpl.
    destruct (ReviewData.status r); simpl; intuition congruence.
  - reflexivity.
Qed.

(** The chat's deployment summary agrees with the gate.  Every repository
    is counted once, as ready or as blocked; [triggerDeployment] starts a
    run for exactly the repositories counted ready and rejects exactly those
    counted blocked.  (The handler does not look at [isAnalyzing] or at the
    status.) *)
Theorem readiness_matches_the_gate :
  forall (rs : list Repository.t),
    (List.length (readyRepos rs) + List.length (blockedRepos rs)
     = List.length rs)%nat /\
    (forall r, In r (readyRepos rs) -> In r (blockedRepos rs) -> False) /\
    (forall r,
       In r rs ->
       (In r (readyRepos rs) /\
        forall now environment st,
          List.length (pipelines (triggerDeployment now r environment st))
          = S (List.length (pipelines st)))
       \/
       (In r (blockedRepos rs) /\
        forall now environment st,
          pipelines (triggerDeployment now r environment st) = pipelines st)).
Proof.
  intro rs. unfold readyRepos, blockedRepos.
  split; [|split].
  - induction rs as [|r rs IH]; [reflexivity|]. simpl.
    rewrite lt_ge. destruct (JS.ge (Repository.qualityScore r) 85); simpl; lia.
  - intros r H1 H2. apply filter_In in H1. apply filter_In in H2.
    destruct H1 as [_ H1]. destruct H2 as [_ H2].
    rewrite lt_ge, H1 in H2. discriminate.
  - intros r Hin.
    destruct (JS.ge (Repository.qualityScore r) 85) eqn:E.
    + left. split; [apply filter_In; auto|].
      intros now environment st. apply ge_spec in E.
      now rewrite (triggerDeployment_accepted _ _ _ _ E).
    + right. split; [apply filter_In; rewrite lt_ge, E; auto|].
      intros now environment st. apply ge_false in E.
      now apply triggerDeployment_rejected_pipelines.
Qed.

Lemma readiness_matches_the_gate_witness :
  In sampleRepo (initialRepositories 0) /\
  (List.length (readyRepos (initialRepositories 0))
   + List.length (blockedRepos (initialRepositories 0))
   = List.length (initialRepositories 0))%nat.
Proof.
  split; [now left|].
  exact (proj1 (readiness_matches_the_gate (initialRepositories 0))).
Defined.

(** The success rate shown above the pipelines is a whole percentage
    between 0 and 100: 0 when there is no run (no division by zero) or no
    completed run, 100 when every run is completed. *)
Theorem successRate_bounded :
  forall (ps : list Pipeline.t),
    0 <= successRate ps <= 100 /\
    successRate [] = 0 /\
    ((forall p, In p ps -> Pipeline.stage p <> completed) ->
     successRate ps = 0) /\
    (ps <> [] -> (forall p, In p ps -> Pipeline.stage p = completed) ->
     successRate ps = 100).
Proof.
  intro ps.
  assert (Hmain : forall c : nat,
             ps <> [] -> (c <= List.length ps)%nat ->
             0 <= JS.Math_round
                    (inject_Z (Z.of_nat c)
                     / inject_Z (Z.of_nat (List.length ps)) * 100) <= 100 /\
             (c = 0%nat ->
              JS.Math_round
                (inject_Z (Z.of_nat c)
                 / inject_Z (Z.of_nat (List.length ps)) * 100) = 0) /\
             (c = List.length ps ->
              JS.Math_round
                (inject_Z (Z.of_nat c)
                 / inject_Z (Z.of_nat (List.length ps)) * 100) = 100)).
  { intros c Hne Hc.
    assert (Hn : (0 < inject_Z (Z.of_nat (List.length ps)))%Q).
    { change 0%Q with (inject_Z 0). rewrite <- Zlt_Qlt.
      destruct ps; [congruence | simpl; lia]. }
    assert (Hc0 : (0 <= inject_Z (Z.of_nat c))%Q).
    { change 0%Q with (inject_Z 0). rewrite <- Zle_Qle. lia. }
    assert (Hcn : (inject_Z (Z.of_nat c)
                   <= inject_Z (Z.of_nat (List.length ps)))%Q).
    { rewrite <- Zle_Qle. lia. }
    assert (Hq0 : (0 <= inject_Z (Z.of_nat c)
                        / inject_Z (Z.of_nat (List.length ps)))%Q).
    { apply Qle_shift_div_l; [exact Hn | lra]. }
    assert (Hq1 : (inject_Z (Z.of_nat c)
                   / inject_Z (Z.of_nat (List.length ps)) <= 1)%Q).
    { apply Qle_shift_div_r; [exact Hn | lra]. }
    set (q := (inject_Z (Z.of_nat c)
               / inject_Z (Z.of_nat (List.length ps)))%Q) in *.
    split; [|split].
    - apply round_between.
      + change (inject_Z 0) with 0%Q. lra.
      + change (inject_Z 100) with 100%Q. lra.
    - intros ->.
      assert (Hz : (q <= 0)%Q).
      { subst q. apply Qle_shift_div_r; [exact Hn|].
        change (inject_Z (Z.of_nat 0)) with 0%Q. lra. }
      assert (R : 0 <= JS.Math_round (q * 100) <= 0).
      { apply round_between.
        - change (inject_Z 0) with 0%Q. lra.
        - change (inject_Z 0) with 0%Q. lra. }
      lia.
    - intros Hall.
      assert (Hone : (1 <= q)%Q).
      { subst q. apply Qle_shift_div_l; [exact Hn|]. rewrite Hall. lra. }
      assert (R : 100 <= JS.Math_round (q * 100) <= 100).
      { apply round_between.
        - change (inject_Z 100) with 100%Q. lra.
        - change (inject_Z 100) with 100%Q. lra. }
      lia. }
  unfold successRate.
  destruct ps as [|p ps'];
    [simpl; repeat split; try lia; try reflexivity; intros; congruence|].
  change (Nat.ltb 0 (List.length (p :: ps'))) with true. cbv iota.
  set (all := p :: ps') in *.
  assert (Hne : all <> []) by discriminate.
  pose proof (filter_length_le
                (fun p0 => Stage_eqb (Pipeline.stage p0) completed) all) as Hle.
  destruct (Hmain _ Hne Hle) as (Hb & Hzero & Hfull).
  split; [exact Hb|]. split; [reflexivity|]. split.
  - intro Hnone. apply Hzero.
    rewrite (proj2 (length_zero_iff_nil _)); [reflexivity|].
    destruct (filter _ all) as [|x xs] eqn:Ef; [reflexivity|].
    assert (Hx : In x (filter
                        (fun p0 => Stage_eqb (Pipeline.stage p0) completed)
                        all)) by (rewrite Ef; now left).
    apply filter_In in Hx. destruct Hx as [Hx Hs].
    specialize (Hnone x Hx). destruct (Pipeline.stage x); try discriminate.
    congruence.
  - intros _ Hall. apply Hfull. f_equal. apply filter_all_kept.
    intros x Hx. now rewrite (Hall x Hx).
Qed.

Lemma successRate_bounded_witness :
  initialPipelines <> [] /\ 0 <= successRate initialPipelines <= 100.
Proof.
  split; [discriminate|].
  exact (proj1 (successRate_bounded initialPipelines)).
Defined.

(** ** Parsing the URL *)

Lemma prefix_of_append (p s : string) : String.prefix p (p ++ s) = true.
Proof.
  induction p as [|c p IH]; simpl.
  - now destruct s.
  - destruct (ascii_dec c c) as [_|Hne]; [exact IH | congruence].
Qed.

Lemma drop_of_append (p s : string) :
  JS.drop (String.length p) (p ++ s) = s.
Proof. induction p as [|c p IH]; simpl; [reflexivity | exact IH]. Qed.

Lemma split_no_slash (s : string) :
  no_slash s = true -> JS.split "/" s = [s].
Proof.
  induction s as [|c s IH]; simpl; [reflexivity|].
  intro H. apply andb_true_iff in H. destruct H as [Hc Hs].
  apply negb_true_iff in Hc. rewrite Hc, (IH Hs). reflexivity.
Qed.

Lemma split_at_slash (a b : string) :
  no_slash a = true ->
  JS.split "/" (a ++ String "/" b) = a :: JS.split "/" b.
Proof.
  induction a as [|c a IH]; simpl; [reflexivity|].
  intro H. apply andb_true_iff in H. destruct H as [Hc Ha].
  apply negb_true_iff in Hc. rewrite Hc, (IH Ha). reflexivity.
Qed.

(** A URL [https://github.com/<owner>/<name>] whose owner and name contain
    no [/] is parsed back into that owner and that name.  Connecting it is
    accepted exactly when no connected repository has that owner and name,
    and the repository appended then carries the owner, the name and the URL
    as typed, a quality score of 0, the status [reviewing] and the
    [isAnalyzing] flag. *)
Theorem githubUrl_parses_back :
  forall (owner name : string),
    no_slash owner = true -> no_slash name = true ->
    urlParts (githubUrl owner name) = [owner; name] /\
    forall (now : Z) (st : AppState),
      (fst (addRepository now (githubUrl owner name) st) = true <->
       forall repo, In repo (repositories st) ->
         ~ (Repository.owner repo = owner /\ Repository.name repo = name)) /\
      (fst (addRepository now (githubUrl owner name) st) = true ->
       repositories (snd (addRepository now (githubUrl owner name) st))
       = repositories st
         ++ [Repository.mk (JS.toString now) name owner "main" "just now"
               0%Q reviewing 0%Q (githubUrl owner name) now (Some true)]).
Proof.
  intros owner name Ho Hn.
  assert (Hp : urlParts (githubUrl owner name) = [owner; name]).
  { rewrite urlParts_prefixed by apply prefix_of_append.
    unfold urlParts_spec, stripPrefix_spec, githubUrl.
    rewrite prefix_of_append, drop_of_append.
    change (owner ++ "/" ++ name)%string
      with (owner ++ String "/" name)%string.
    rewrite (split_at_slash owner name Ho), (split_no_slash name Hn).
    reflexivity. }
  split; [exact Hp|].
  intros now st. split.
  - split.
    + intros Hok repo Hin [Hro Hrn].
      rewrite (addRepository_duplicate now _ st owner name repo Hp Hin Hro Hrn)
        in Hok. discriminate.
    + intro Hnone. unfold addRepository, addRepository_try.
      rewrite Hp. simpl.
      destruct (existsb _ (repositories st)) eqn:E; [|reflexivity].
      apply existsb_exists in E. destruct E as (repo & Hin & Hm).
      apply andb_true_iff in Hm. destruct Hm as [Hro Hrn].
      apply String.eqb_eq in Hro. apply String.eqb_eq in Hrn.
      exfalso. exact (Hnone repo Hin (conj Hro Hrn)).
  - intro Hok.
    destruct (addRepository_accepted now _ st Hok) as (o & n & Hp' & ->).
    rewrite Hp in Hp'. injection Hp' as <- <-. reflexivity.
Qed.

Lemma githubUrl_parses_back_witness :
  no_slash "owner" = true /\ no_slash "name" = true /\
  urlParts (githubUrl "owner" "name") = ["owner"; "name"].
Proof.
  split; [reflexivity|]. split; [reflexivity|].
  exact (proj1 (githubUrl_parses_back "owner" "name" eq_refl eq_refl)).
Defined.

(** ** What events never do *)

(** Reviews are never edited.  Whatever the event, the review list is left
    as it is, or loses the reviews of a removed repository, or gains one
    review from "ai-analysis" at the front; a review that stays is the
    review it was. *)
Theorem reviews_never_edited :
  forall (st : AppState) (e : Event),
    reviews (step st e) = reviews st \/
    (exists repoId,
       e = ERemoveRepository repoId /\
       reviews (step st e)
       = filter (fun review =>
                   negb (ReviewData.repositoryId review === repoId))
                (reviews st)) \/
    (exists review,
       reviews (step st e) = review :: reviews st /\
       ReviewData.author review = "ai-analysis" /\
       ReviewData.status review = review_completed).
Proof.
  intros st e.
  destruct e as [now repoUrl|repoId| |repoId|h now d
                |now repo environment|h random|pipelineId|now pipelineId];
    simpl.
  - left. unfold addRepository, addRepository_try.
    destruct (negb _); [reflexivity|].
    destruct (existsb _ _); reflexivity.
  - right. left. exists repoId. split; reflexivity.
  - left. reflexivity.
  - left. reflexivity.
  - unfold fireTimeout.
    destruct (nth_error (timeouts st) h) as [t|]; [|now left].
    destruct (Timeout.fired t); [now left|].
    destruct (Timeout.callback t) as [newRepoId name|repoId|].
    + right. right. eexists. split; [reflexivity|]. split; reflexivity.
    + left. reflexivity.
    + left. reflexivity.
  - left. unfold triggerDeployment.
    destruct (JS.lt (Repository.qualityScore repo) 85); reflexivity.
  - left. unfold fireInterval.
    destruct (nth_error (intervals st) h) as [iv|]; [|reflexivity].
    destruct (Interval.cleared iv); [reflexivity|].
    unfold intervalCallback.
    destruct (JS.ge (Interval.progress iv + (random * 15 + 5)) 100);
      reflexivity.
  - left. reflexivity.
  - left. unfold retryDeployment.
    destruct (find _ (pipelines st)) as [p|]; [|reflexivity].
    destruct (find _ (repositories st)) as [repo|]; [|reflexivity].
    unfold triggerDeployment.
    destruct (JS.lt (Repository.qualityScore repo) 85); reflexivity.
Qed.

Lemma sameRepository_status (repo : Repository.t) (s : RepoStatus) :
  sameRepository (Repository.with_status repo s) repo.
Proof. repeat split. Qed.

Lemma sameRepository_refl (repo : Repository.t) : sameRepository repo repo.
Proof. repeat split. Qed.

Lemma status_update_identity (repoId : string) (s : RepoStatus)
  (rs : list Repository.t) (repo' : Repository.t) :
  In repo'
     (map (fun repo => if Repository.id repo === repoId
                       then Repository.with_status repo s else repo) rs) ->
  exists repo, In repo rs /\ sameRepository repo' repo.
Proof.
  intro Hin. apply in_map_iff in Hin. destruct Hin as (repo & <- & Hr).
  exists repo. split; [exact Hr|].
  destruct (Repository.id repo === repoId);
    [apply sameRepository_status | apply sameRepository_refl].
Qed.

(** A repository never becomes another one.  Whatever the event, every
    repository of the registry afterwards is the one appended by an accepted
    connection, or a repository that was there before with the same id,
    name, owner, branch, URL and creation time: handlers only rewrite the
    status, the quality score, the pull-request count, the last-commit label
    and the [isAnalyzing] flag. *)
Theorem repositories_keep_their_identity :
  forall (st : AppState) (e : Event) (repo' : Repository.t),
    In repo' (repositories (step st e)) ->
    (exists repo, In repo (repositories st) /\ sameRepository repo' repo) \/
    (exists now repoUrl,
       e = EAddRepository now repoUrl /\
       fst (addRepository now repoUrl st) = true /\
       Repository.id repo' = JS.toString now /\
       Repository.url repo' = repoUrl /\
       urlParts repoUrl = [Repository.owner repo'; Repository.name repo']).
Proof.
  intros st e repo' Hin.
  assert (Hsame : In repo' (repositories st) ->
                  exists repo, In repo (repositories st) /\
                               sameRepository repo' repo).
  { intro H. exists repo'. split; [exact H | apply sameRepository_refl]. }
  assert (Htrigger : forall now repo environment,
             In repo' (repositories (triggerDeployment now repo environment st)) ->
             exists repo0, In repo0 (repositories st) /\
                           sameRepository repo' repo0).
  { intros now repo environment. unfold triggerDeployment.
    destruct (JS.lt (Repository.qualityScore repo) 85); simpl.
    - exact Hsame.
    - apply status_update_identity. }
  destruct e as [now repoUrl|repoId| |repoId|h now d
                |now repo environment|h random|pipelineId|now pipelineId];
    simpl in Hin.
  - destruct (fst (addRepository now repoUrl st)) eqn:Hok.
    + destruct (addRepository_accepted now repoUrl st Hok)
        as (owner & name & Hp & E).
      rewrite E in Hin. simpl in Hin. apply in_app_iff in Hin.
      destruct Hin as [Hin | [<- | []]].
      * left. now apply Hsame.
      * right. exists now, repoUrl. repeat split; assumption.
    + destruct (addRepository_rejected_frame now repoUrl st Hok) as [msg E].
      rewrite E in Hin. left. now apply Hsame.
  - left. unfold removeRepository in Hin. simpl in Hin.
    apply filter_In in Hin. apply Hsame. tauto.
  - left. now apply Hsame.
  - left. unfold triggerManualReview in Hin. simpl in Hin.
    now apply status_update_identity in Hin.
  - left. unfold fireTimeout in Hin.
    destruct (nth_error (timeouts st) h) as [t|]; [|now apply Hsame].
    destruct (Timeout.fired t); [now apply Hsame|].
    destruct (Timeout.callback t) as [newRepoId name|repoId|].
    + apply analysisCallback_repositories in Hin.
      destruct Hin as (k & repo & Hk & ->). apply nth_error_In in Hk.
      exists repo. split; [exact Hk|].
      destruct (Repository.id repo === newRepoId); repeat split.
    + unfold manualReviewCallback in Hin.
      apply updateRepositoryStatus_In in Hin.
      destruct Hin as (repo & Hr & ->). exists repo. split; [exact Hr|].
      destruct (Repository.id repo === repoId); repeat split.
    + unfold refreshCallback in Hin. simpl in Hin. unfold JS.mapi in Hin.
      apply mapi_from_In in Hin. destruct Hin as (k & repo & Hk & ->).
      apply nth_error_In in Hk. exists repo. split; [exact Hk|].
      repeat split.
  - left. now apply (Htrigger now repo environment).
  - left. unfold fireInterval in Hin.
    destruct (nth_error (intervals st) h) as [iv|]; [|now apply Hsame].
    destruct (Interval.cleared iv); [now apply Hsame|].
    unfold intervalCallback in Hin.
    destruct (JS.ge (Interval.progress iv + (random * 15 + 5)) 100);
      simpl in Hin.
    + now apply status_update_identity in Hin.
    + now apply Hsame.
  - left. now apply Hsame.
  - left. unfold retryDeployment in Hin.
    destruct (find _ (pipelines st)) as [p|]; [|now apply Hsame].
    destruct (find _ (repositories st)) as [repo|]; [|now apply Hsame].
    now apply (Htrigger now repo (Pipeline.environment p)).
Qed.

Lemma repositories_keep_their_identity_witness :
  In (Repository.with_status sampleRepo deploying)
     (repositories
        (step (initialState 0)
           (ETriggerDeployment 1700000000000 sampleRepo staging))) /\
  exists repo,
    In repo (repositories (initialState 0)) /\
    sameRepository (Repository.with_status sampleRepo deploying) repo.
Proof.
  assert (Hin : In (Repository.with_status sampleRepo deploying)
                   (repositories
                      (step (initialState 0)
                         (ETriggerDeployment 1700000000000 sampleRepo
                            staging)))) by (now left).
  split; [exact Hin|].
  destruct (repositories_keep_their_identity (initialState 0)
              (ETriggerDeployment 1700000000000 sampleRepo staging) _ Hin)
    as [H | (now & repoUrl & Heq & _)].
  - exact H.
  - discriminate.
Defined.

(** * Where the claims as stated fail *)


(** C9, as stated, fails when two runs share an id.  Two deployments are
    triggered at the same clock reading; after a tick of the first interval
    (draw 1/2) both runs read 13 in stage [build]; after a tick of the
    second interval (draw 0, accumulated 5) both read 5, still in stage
    [build]: the recorded progress of a run that is not failed has
    decreased.  Every draw is in [[0, 1)]. *)
Lemma progress_drops_when_ids_collide :
  draws_ok_trace (collisionStart ++ collisionRest) = true /\
  ~ (forall (t0 : Z) (before after : list Event),
       draws_ok_trace (before ++ after) = true ->
       forall k p p',
         nth_error (pipelines (exec (initialState t0) before)) k = Some p ->
         nth_error (pipelines (exec (initialState t0) (before ++ after))) k
         = Some p' ->
         Pipeline.id p' = Pipeline.id p ->
         Pipeline.stage p' <> failed ->
         (Pipeline.progress p <= Pipeline.progress p')%Q) /\
  map (fun p => (Pipeline.id p, Pipeline.stage p, Pipeline.progress p))
      (firstn 2 (pipelines (exec (initialState 0) collisionStart)))
  = [("1700000000000", build, 13%Q); ("1700000000000", build, 13%Q)] /\
  map (fun p => (Pipeline.id p, Pipeline.stage p, Pipeline.progress p))
      (firstn 2
         (pipelines (exec (initialState 0) (collisionStart ++ collisionRest))))
  = [("1700000000000", build, 5%Q); ("1700000000000", build, 5%Q)].
Proof.
  split; [reflexivity|]. split; [|split; vm_compute; reflexivity].
  intro H.
  assert (Hb : exists p,
             nth_error (pipelines (exec (initialState 0) collisionStart)) 0
             = Some p /\
             Pipeline.id p = "1700000000000" /\
             Pipeline.progress p = 13%Q).
  { eexists. split; [vm_compute; reflexivity|]. split; reflexivity. }
  assert (Ha : exists p',
             nth_error
               (pipelines
                  (exec (initialState 0) (collisionStart ++ collisionRest))) 0
             = Some p' /\
             Pipeline.id p' = "1700000000000" /\
             Pipeline.stage p' = build /\
             Pipeline.progress p' = 5%Q).
  { eexists. split; [vm_compute; reflexivity|].
    split; [reflexivity|]. split; reflexivity. }
  destruct Hb as (p & Hp & Hid & Hprog).
  destruct Ha as (p' & Hp' & Hid' & Hstage' & Hprog').
  assert (Hle : (Pipeline.progress p <= Pipeline.progress p')%Q).
  { apply (H 0 collisionStart collisionRest eq_refl 0%nat p p' Hp Hp').
    - congruence.
    - rewrite Hstage'. discriminate. }
  rewrite Hprog, Hprog' in Hle. vm_compute in Hle. apply Hle. reflexivity.
Qed.
